(** * KitaTourAja: the itinerary store and the insight resolver of [src/App.tsx]

    A shallow embedding of the state handling of the [App] component:
    [loadData], [syncData], [addStop], [toggleStatus], [deleteStop], the
    derived values [sortedStops], [nextStop], [totalCost], and the insight
    resolver [fetchAiInsights] with [getSmartFallback].

    The browser's [localStorage] is a finite map from keys to texts, React
    state is a record threaded through a small state-and-exception monad,
    and every call that leaves the component (Supabase, Gemini, the console)
    is recorded in a chronological trace.  What the outside world answers to
    such a call is an argument of the operation that makes it. *)

From Stdlib Require Import ZArith Lia Sorted Ascii.
From Stdlib Require Import PrimFloat FloatOps SpecFloat Uint63.
From stdpp Require Import base option list strings pretty gmap.

Local Open Scope Z_scope.

(** ** Data model *)

(** [status] of a stop: the union ['planned' | 'visited' | 'skipped']. *)
Inductive Status := planned | visited | skipped.

Global Instance Status_eq_dec : EqDecision Status := ltac:(solve_decision).

(** A [Stop] as [addStop] builds it.  [cost] is a JavaScript number, that
    is an IEEE 754 double, and optional: rows read back from the remote
    table or from the cache may lack it ([cost NUMERIC] is nullable). *)
Record Stop := mkStop {
  id : string;
  title : string;
  address : string;
  dateTime : string;
  notes : string;
  cost : option float;
  status : Status;
  order : nat
}.

(** A JSON value, as [JSON.parse] yields it. *)
Local Unset Elimination Schemes.
Inductive json :=
| JNull
| JBool (b : bool)
| JNum (z : Z)
| JStr (s : string)
| JArr (items : list json)
| JObj (fields : list (string * json)).
Local Set Elimination Schemes.

(** ** The host: library and built-in functions the component calls

    These come from date-fns and from the JavaScript runtime, not from the
    repository; the development is parametric in them. *)
Class Host := {
  (** date-fns [parseISO], read through [+date]: the time value in
      milliseconds, [None] for an Invalid Date. *)
  parseISO : string → option Z;
  (** [Number(text)], a double; it is NaN for a text that is no numeral. *)
  Number : string → float;
  (** [String.prototype.toLowerCase]. *)
  toLowerCase : string → string;
  (** [JSON.parse]: [None] when it throws a SyntaxError. *)
  JSON_parse : string → option json;
  (** [JSON.stringify] of a parsed value. *)
  JSON_stringify : json → string;
  (** [JSON.parse] and [JSON.stringify] at the type [Stop[]]. *)
  JSON_parse_stops : string → option (list Stop);
  JSON_stringify_stops : list Stop → string
}.

(** ** JavaScript idioms *)

(** Truthiness of a string: only the empty string is falsy. *)
Definition truthy (s : string) : bool :=
  match s with EmptyString => false | String _ _ => true end.

(** [haystack.includes(needle)]. *)
Fixpoint includes (haystack needle : string) : bool :=
  String.prefix needle haystack ||
  match haystack with
  | EmptyString => false
  | String _ rest => includes rest needle
  end.

(** date-fns [compareAsc] on two time values: -1, 0 or 1, and NaN ([None])
    as soon as one of the dates is invalid. *)
Definition compareAsc (dateLeft dateRight : option Z) : option Z :=
  match dateLeft, dateRight with
  | Some l, Some r =>
      if l - r <? 0 then Some (-1) else if 0 <? l - r then Some 1 else Some 0
  | _, _ => None
  end.

(** What [Array.prototype.sort] makes of a comparator's answer: NaN counts
    as 0. *)
Definition SortCompare {A} (comparefn : A → A → option Z) (x y : A) : Z :=
  default 0 (comparefn x y).

(** [Array.prototype.sort] is a stable sort: an element moves behind
    exactly those it is strictly greater than.  For a comparator that is a
    consistent ordering this is the one result the language allows; for an
    inconsistent one (NaN answers among valid dates) the language leaves
    the order to the engine, and the properties below do not cover it. *)
Fixpoint sort_insert {A} (comparefn : A → A → option Z) (x : A) (l : list A)
  : list A :=
  match l with
  | [] => [x]
  | y :: l' =>
      if 0 <? SortCompare comparefn x y
      then y :: sort_insert comparefn x l'
      else x :: y :: l'
  end.

Fixpoint Array_sort {A} (comparefn : A → A → option Z) (l : list A) : list A :=
  match l with
  | [] => []
  | x :: l' => sort_insert comparefn x (Array_sort comparefn l')
  end.

(** Falsy numbers: NaN and the two zeros. *)
Definition falsy_number (x : float) : bool :=
  PrimFloat.is_nan x || PrimFloat.is_zero x.

(** [a || b] on numbers; a missing value ([None]) is falsy too. *)
Definition or_number (a : option float) (b : float) : float :=
  match a with
  | Some x => if falsy_number x then b else x
  | None => b
  end.

(** ** Derived values (lines 161-165) *)

Section Derived.
Context `{Host}.

(** The comparator both sorts use. *)
Definition byDateTime (a b : Stop) : option Z :=
  compareAsc (parseISO (dateTime a)) (parseISO (dateTime b)).

Definition sortedStops (stops : list Stop) : list Stop :=
  Array_sort byDateTime stops.

Definition nextStop (stops : list Stop) : option Stop :=
  List.find (λ s, bool_decide (status s = planned)) (sortedStops stops).

Definition skippedStops (stops : list Stop) : list Stop :=
  List.filter (λ s, bool_decide (status s = skipped)) (sortedStops stops).

Definition completedStops (stops : list Stop) : list Stop :=
  List.filter (λ s, bool_decide (status s = visited)) (sortedStops stops).

(** [stop.cost || 0] *)
Definition costOrZero (s : Stop) : float := or_number (cost s) 0%float.

Definition totalCost (stops : list Stop) : float :=
  fold_left (λ acc stop, PrimFloat.add acc (costOrZero stop)) stops 0%float.
End Derived.

(** ** The component's state and its surroundings *)

(** Calls that leave the component, in the order they are made. *)
Inductive Event :=
| LocalSet (key value : string)      (* localStorage.setItem(key, value) *)
| RemoteSelect                       (* .select('*').order('order') *)
| RemoteUpsert (rows : list Stop)    (* .upsert(rows, { onConflict: 'id' }) *)
| RemoteDelete (stopId : string)     (* .delete().eq('id', stopId) *)
| Generate (stopTitle stopAddress : string) (* ai.models.generateContent *)
| ConsoleError (label : string).     (* console.error(label, err) *)

(** The [useState] cells of [App], the module constant [supabase] (is a
    client configured?), the browser's [localStorage] and the trace. *)
Record World := mkWorld {
  stops : list Stop;
  isAdding : bool;
  isLoading : bool;
  isOnline : bool;
  aiInsights : json;
  isLoadingAi : bool;
  supabase : bool;
  localStorage : gmap string string;
  trace : list Event
}.

(** What an awaited promise does: it rejects, or resolves to a value. *)
Inductive Settled (A : Type) :=
| Rejects
| Resolves (value : A).
Arguments Rejects {A}.
Arguments Resolves {A} _.

(** The [{ data, error }] object a Supabase query resolves to. *)
Record Response (A : Type) := mkResponse {
  data : option A;
  error : option string
}.
Arguments mkResponse {A} _ _.
Arguments data {A} _.
Arguments error {A} _.

(** What can be thrown. *)
Inductive Exn :=
| SyntaxError                (* JSON.parse on a malformed text *)
| Rejection                  (* a rejected awaited promise *)
| PostgrestError (message : string). (* [if (error) throw error] *)

Inductive Outcome (A : Type) :=
| Done (result : A)
| Thrown (e : Exn).
Arguments Done {A} _.
Arguments Thrown {A} _.

(** Computations over the world that may throw. *)
Definition M (A : Type) : Type := World → Outcome A * World.

Global Instance M_ret : MRet M := λ A a w, (Done a, w).

Global Instance M_bind : MBind M := λ A B k m w,
  match m w with
  | (Done a, w') => k a w'
  | (Thrown e, w') => (Thrown e, w')
  end.

Definition throw {A} (e : Exn) : M A := λ w, (Thrown e, w).

(** [try { body } catch (err) { handler }] *)
Definition try_catch {A} (body : M A) (handler : Exn → M A) : M A :=
  λ w, match body w with
       | (Done a, w') => (Done a, w')
       | (Thrown e, w') => handler e w'
       end.

(** [try { body } finally { cleanup }] *)
Definition try_finally {A} (body : M A) (cleanup : M unit) : M A :=
  λ w, match body w with
       | (Done a, w') =>
           match cleanup w' with
           | (Done _, w'') => (Done a, w'')
           | (Thrown e, w'') => (Thrown e, w'')
           end
       | (Thrown e, w') =>
           match cleanup w' with
           | (Done _, w'') => (Thrown e, w'')
           | (Thrown e', w'') => (Thrown e', w'')
           end
       end.

Definition run {A} (m : M A) (w : World) : World := snd (m w).
Definition outcome {A} (m : M A) (w : World) : Outcome A := fst (m w).

(** *** State setters and primitive effects *)

Definition setStops (l : list Stop) : M unit := λ w,
  (Done tt, mkWorld l (isAdding w) (isLoading w) (isOnline w) (aiInsights w)
              (isLoadingAi w) (supabase w) (localStorage w) (trace w)).

Definition setIsAdding (b : bool) : M unit := λ w,
  (Done tt, mkWorld (stops w) b (isLoading w) (isOnline w) (aiInsights w)
              (isLoadingAi w) (supabase w) (localStorage w) (trace w)).

Definition setIsLoading (b : bool) : M unit := λ w,
  (Done tt, mkWorld (stops w) (isAdding w) b (isOnline w) (aiInsights w)
              (isLoadingAi w) (supabase w) (localStorage w) (trace w)).

Definition setIsOnline (b : bool) : M unit := λ w,
  (Done tt, mkWorld (stops w) (isAdding w) (isLoading w) b (aiInsights w)
              (isLoadingAi w) (supabase w) (localStorage w) (trace w)).

Definition setAiInsights (v : json) : M unit := λ w,
  (Done tt, mkWorld (stops w) (isAdding w) (isLoading w) (isOnline w) v
              (isLoadingAi w) (supabase w) (localStorage w) (trace w)).

Definition setIsLoadingAi (b : bool) : M unit := λ w,
  (Done tt, mkWorld (stops w) (isAdding w) (isLoading w) (isOnline w)
              (aiInsights w) b (supabase w) (localStorage w) (trace w)).

Definition emit (e : Event) : M unit := λ w,
  (Done tt, mkWorld (stops w) (isAdding w) (isLoading w) (isOnline w)
              (aiInsights w) (isLoadingAi w) (supabase w) (localStorage w)
              (trace w ++ [e])).

Definition get {A} (field : World → A) : M A := λ w, (Done (field w), w).

(** [localStorage.getItem(key)]: [None] is [null]. *)
Definition getItem (key : string) : M (option string) := λ w,
  (Done (localStorage w !! key), w).

(** [localStorage.setItem(key, value)] *)
Definition setItem (key value : string) : M unit := λ w,
  (Done tt, mkWorld (stops w) (isAdding w) (isLoading w) (isOnline w)
              (aiInsights w) (isLoadingAi w) (supabase w)
              (<[key := value]> (localStorage w))
              (trace w ++ [LocalSet key value])).

Definition console_error (label : string) : M unit := emit (ConsoleError label).

(** [await promise] *)
Definition await {A} (p : Settled A) : M A :=
  match p with
  | Rejects => throw Rejection
  | Resolves a => mret a
  end.

(** [if (error) throw error] *)
Definition throw_if_error {A} (r : Response A) : M unit :=
  match error r with
  | Some msg => throw (PostgrestError msg)
  | None => mret tt
  end.

(** [if (cached)] on the answer of [getItem]: [null] and the empty text
    are falsy. *)
Definition present (cached : option string) : option string :=
  match cached with
  | Some text => if truthy text then Some text else None
  | None => None
  end.

Definition stopsKey : string := "kitatour_stops".

(** The six named inputs of the add form, as [FormData.get] returns them.
    Every input is rendered, so every entry is a text (maybe empty). *)
Record FormData := mkFormData {
  fd_title : string;
  fd_address : string;
  fd_date : string;
  fd_time : string;
  fd_notes : string;
  fd_cost : string
}.

(** ** The itinerary store *)

Section Store.
Context `{Host}.

(** [loadData] (lines 59-87).  [query] is what the Supabase request does
    if it is issued. *)
Definition loadData (query : Settled (Response (list Stop))) : M unit :=
  setIsLoading true;;
  cached ← getItem stopsKey;
  match present cached with
  | Some text =>
      match JSON_parse_stops text with
      | Some parsed => setStops parsed
      | None => throw SyntaxError
      end
  | None => mret tt
  end;;
  online ← get isOnline;
  client ← get supabase;
  (if online && client then
     try_catch
       (emit RemoteSelect;;
        response ← await query;
        throw_if_error response;;
        match data response with
        | Some rows =>
            setStops rows;;
            setItem stopsKey (JSON_stringify_stops rows)
        | None => mret tt
        end)
       (λ err, console_error "Supabase Load Error:")
   else mret tt);;
  setIsLoading false.

(** [syncData] (lines 96-115). *)
Definition syncData (upsert : Settled (Response unit))
    (updatedStops : list Stop) : M unit :=
  setStops updatedStops;;
  setItem stopsKey (JSON_stringify_stops updatedStops);;
  online ← get isOnline;
  client ← get supabase;
  if online && client then
    try_catch
      (emit (RemoteUpsert updatedStops);;
       response ← await upsert;
       throw_if_error response)
      (λ err, console_error "Supabase Sync Error:")
  else mret tt.

(** The object literal of [addStop] (lines 120-129); [uuid] is what
    [crypto.randomUUID()] returned. *)
Definition newStop (uuid : string) (formData : FormData)
    (stopsLength : nat) : Stop :=
  {| id := uuid;
     title := fd_title formData;
     address := fd_address formData;
     dateTime := fd_date formData +:+ "T" +:+ fd_time formData;
     notes := fd_notes formData;
     cost := Some (or_number (Some (Number (fd_cost formData))) 0%float);
     status := planned;
     order := stopsLength |}.

(** [addStop] (lines 117-134). *)
Definition addStop (uuid : string) (formData : FormData)
    (upsert : Settled (Response unit)) : M unit :=
  current ← get stops;
  let updated :=
    Array_sort byDateTime
      (current ++ [newStop uuid formData (length current)]) in
  syncData upsert updated;;
  setIsAdding false.

(** [forceStatus || (s.status === 'visited' ? 'planned' : 'visited')] *)
Definition nextStatus (forceStatus : option Status) (current : Status)
  : Status :=
  match forceStatus with
  | Some target => target
  | None => if decide (current = visited) then planned else visited
  end.

Definition withStatus (s : Stop) (st : Status) : Stop :=
  {| id := id s; title := title s; address := address s;
     dateTime := dateTime s; notes := notes s; cost := cost s;
     status := st; order := order s |}.

(** The callback [toggleStatus] maps over the collection. *)
Definition retarget (stopId : string) (forceStatus : option Status)
    (s : Stop) : Stop :=
  if String.eqb (id s) stopId
  then withStatus s (nextStatus forceStatus (status s))
  else s.

(** [toggleStatus] (lines 136-145). *)
Definition toggleStatus (stopId : string) (forceStatus : option Status)
    (upsert : Settled (Response unit)) : M unit :=
  current ← get stops;
  let updated := map (retarget stopId forceStatus) current in
  syncData upsert updated.

(** [deleteStop] (lines 147-159).  The answer to the delete request is
    not inspected. *)
Definition deleteStop (stopId : string) (del : Settled (Response unit))
  : M unit :=
  current ← get stops;
  let updated := List.filter (λ s, negb (String.eqb (id s) stopId)) current in
  setStops updated;;
  setItem stopsKey (JSON_stringify_stops updated);;
  online ← get isOnline;
  client ← get supabase;
  if online && client then
    try_catch
      (emit (RemoteDelete stopId);;
       _ ← await del;
       mret tt)
      (λ err, console_error "Supabase Delete Error:")
  else mret tt.
End Store.

(** ** The insight resolver *)

Section Insights.
Context `{Host}.

(** [getSmartFallback] (lines 217-239). *)
Definition getSmartFallback (stopTitle : string) : json :=
  let t := toLowerCase stopTitle in
  let '(tips, costs) :=
    if includes t "pantai" then
      ("Bawa sunblock, baju ganti, dan kacamata hitam.",
       "Biasanya ada biaya parkir & sewa payung.")
    else if includes t "candi" || includes t "museum" then
      ("Gunakan sepatu nyaman dan bawa topi.",
       "Siapkan biaya tiket masuk (biasanya Rp 20rb - 100rb).")
    else if includes t "makan" || includes t "resto" || includes t "kuliner"
    then
      ("Cek ulasan terbaru untuk menu andalan.",
       "Estimasi Rp 50rb - 150rb per orang.")
    else
      ("Siapkan peta offline dan air minum.",
       "Siapkan uang tunai untuk parkir/jajan.") in
  JObj [("costs", JStr costs);
        ("weather", JStr "Cek langit secara manual (Mode Offline)");
        ("recommendations", JStr "Tanya warga lokal untuk spot terbaik.");
        ("tips", JStr tips)].

Definition cacheKey (stop : Stop) : string := "ai_cache_" +:+ id stop.

(** [response.text || '{}'] *)
Definition textOrEmptyObject (text : option string) : string :=
  match text with
  | Some t => if truthy t then t else "{}"
  | None => "{}"
  end.

(** [JSON.parse(text)], which throws on a malformed text. *)
Definition parse_or_throw (text : string) : M json :=
  match JSON_parse text with
  | Some v => mret v
  | None => throw SyntaxError
  end.

(** [fetchAiInsights] (lines 168-215).  [generation] is what the call to
    the model does if it is made: it rejects, or resolves to a response
    whose [text] may be undefined. *)
Definition fetchAiInsights (stop : Stop)
    (generation : Settled (option string)) : M unit :=
  cached ← getItem (cacheKey stop);
  match present cached with
  | Some text =>
      v ← parse_or_throw text;
      setAiInsights v
  | None =>
      online ← get isOnline;
      if negb online then
        setAiInsights (getSmartFallback (title stop))
      else
        setIsLoadingAi true;;
        try_finally
          (try_catch
             (emit (Generate (title stop) (address stop));;
              response ← await generation;
              parsed ← parse_or_throw (textOrEmptyObject response);
              setAiInsights parsed;;
              setItem (cacheKey stop) (JSON_stringify parsed))
             (λ err,
                console_error "AI Insights Error:";;
                setAiInsights (getSmartFallback (title stop))))
          (setIsLoadingAi false)
  end.

(** The effect on [nextStop?.id] (lines 251-257). *)
Definition nextStopEffect (generation : Settled (option string)) : M unit :=
  current ← get stops;
  match nextStop current with
  | Some stop => fetchAiInsights stop generation
  | None => setAiInsights JNull
  end.
End Insights.

(** ** A reference host

    A small executable host for the worked examples: timestamps of the
    shape [YYYY-MM-DDTHH:mm] read as UTC, decimal numerals, ASCII case
    folding, and JSON without white space, escapes or fractions. *)
Module ReferenceHost.

Definition dq : Ascii.ascii := "034"%char.
Definition quote (s : string) : string := String dq (s +:+ String dq "").

Definition digit (c : Ascii.ascii) : option Z :=
  let n := Z.of_N (Ascii.N_of_ascii c) in
  if (48 <=? n) && (n <=? 57) then Some (n - 48) else None.

Fixpoint digits_from (acc : Z) (s : string) : option Z :=
  match s with
  | EmptyString => Some acc
  | String c rest => d ← digit c; digits_from (10 * acc + d) rest
  end.

(** A non-empty run of decimal digits. *)
Definition numeral (s : string) : option Z :=
  if truthy s then digits_from 0 s else None.

(** Days since 1970-01-01 of a date in the proleptic Gregorian calendar. *)
Definition days_from_civil (y m d : Z) : Z :=
  let y' := if m <=? 2 then y - 1 else y in
  let era := y' / 400 in
  let yoe := y' - era * 400 in
  let mp := (m + 9) mod 12 in
  let doy := (153 * mp + 2) / 5 + d - 1 in
  let doe := yoe * 365 + yoe / 4 - yoe / 100 + doy in
  era * 146097 + doe - 719468.

Definition parseISO (s : string) : option Z :=
  if negb (Nat.eqb (String.length s) 16) then None else
  if negb (String.eqb (String.substring 4 1 s) "-"
           && String.eqb (String.substring 7 1 s) "-"
           && String.eqb (String.substring 10 1 s) "T"
           && String.eqb (String.substring 13 1 s) ":") then None else
  y ← numeral (String.substring 0 4 s);
  m ← numeral (String.substring 5 2 s);
  d ← numeral (String.substring 8 2 s);
  hh ← numeral (String.substring 11 2 s);
  mm ← numeral (String.substring 14 2 s);
  if (1 <=? m) && (m <=? 12) && (1 <=? d) && (d <=? 31)
     && (hh <=? 23) && (mm <=? 59)
  then Some (((days_from_civil y m d * 24 + hh) * 60 + mm) * 60000)
  else None.

(** The double nearest to an integer below 2^63, and the integer a
    double stands for, if it stands for one. *)
Definition float_of_Z (z : Z) : float := PrimFloat.of_uint63 (Uint63.of_Z z).

Definition Z_of_float (x : float) : option Z :=
  match Prim2SF x with
  | S754_zero _ => Some 0
  | S754_finite sign m e =>
      let magnitude :=
        if 0 <=? e then Some (Z.pos m * 2 ^ e)
        else if Z.pos m mod 2 ^ (- e) =? 0 then Some (Z.pos m / 2 ^ (- e))
        else None in
      (λ n, if sign then - n else n) <$> magnitude
  | _ => None
  end.

Definition Number (s : string) : float :=
  match s with
  | EmptyString => 0%float
  | _ => match digits_from 0 s with
         | Some z => float_of_Z z
         | None => PrimFloat.nan
         end
  end.

Definition lower (c : Ascii.ascii) : Ascii.ascii :=
  let n := Ascii.N_of_ascii c in
  if ((65 <=? n) && (n <=? 90))%N then Ascii.ascii_of_N (n + 32) else c.

Fixpoint toLowerCase (s : string) : string :=
  match s with
  | EmptyString => EmptyString
  | String c rest => String (lower c) (toLowerCase rest)
  end.

(** *** Printing *)

Fixpoint JSON_stringify (j : json) : string :=
  match j with
  | JNull => "null"
  | JBool true => "true"
  | JBool false => "false"
  | JNum z => pretty z
  | JStr s => quote s
  | JArr items =>
      "[" +:+ String.concat "," (map JSON_stringify items) +:+ "]"
  | JObj fields =>
      "{" +:+ String.concat ","
                (map (λ kv, quote (fst kv) +:+ ":" +:+ JSON_stringify (snd kv))
                     fields) +:+ "}"
  end.

(** *** Reading *)

Fixpoint strip_prefix (p s : string) : option string :=
  match p, s with
  | EmptyString, _ => Some s
  | String a p', String b s' =>
      if Ascii.eqb a b then strip_prefix p' s' else None
  | String _ _, EmptyString => None
  end.

(** The text up to the closing quote, and what follows it. *)
Fixpoint string_body (s : string) : option (string * string) :=
  match s with
  | EmptyString => None
  | String c rest =>
      if Ascii.eqb c dq then Some (EmptyString, rest)
      else if Ascii.eqb c "\"%char then None
      else '(body, after) ← string_body rest; Some (String c body, after)
  end.

Fixpoint span_digits (s : string) : string * string :=
  match s with
  | EmptyString => (EmptyString, EmptyString)
  | String c rest =>
      match digit c with
      | Some _ => let '(ds, after) := span_digits rest in (String c ds, after)
      | None => (EmptyString, s)
      end
  end.

Definition number_literal (s : string) : option (json * string) :=
  match strip_prefix "-" s with
  | Some rest =>
      let '(ds, after) := span_digits rest in
      n ← numeral ds; Some (JNum (- n), after)
  | None =>
      let '(ds, after) := span_digits s in
      n ← numeral ds; Some (JNum n, after)
  end.

Fixpoint value (fuel : nat) (s : string) : option (json * string) :=
  match fuel with
  | O => None
  | S fuel' =>
      match strip_prefix "null" s, strip_prefix "true" s,
            strip_prefix "false" s with
      | Some rest, _, _ => Some (JNull, rest)
      | _, Some rest, _ => Some (JBool true, rest)
      | _, _, Some rest => Some (JBool false, rest)
      | _, _, _ =>
          match s with
          | EmptyString => None
          | String c rest =>
              if Ascii.eqb c dq then
                '(body, after) ← string_body rest; Some (JStr body, after)
              else if Ascii.eqb c "["%char then
                match strip_prefix "]" rest with
                | Some after => Some (JArr [], after)
                | None =>
                    '(items, after) ← elements fuel' rest;
                    Some (JArr items, after)
                end
              else if Ascii.eqb c "{"%char then
                match strip_prefix "}" rest with
                | Some after => Some (JObj [], after)
                | None =>
                    '(fields, after) ← members fuel' rest;
                    Some (JObj fields, after)
                end
              else number_literal s
          end
      end
  end
with elements (fuel : nat) (s : string) : option (list json * string) :=
  match fuel with
  | O => None
  | S fuel' =>
      '(v, after) ← value fuel' s;
      match strip_prefix "," after, strip_prefix "]" after with
      | Some more, _ =>
          '(vs, rest) ← elements fuel' more; Some (v :: vs, rest)
      | _, Some rest => Some ([v], rest)
      | _, _ => None
      end
  end
with members (fuel : nat) (s : string)
  : option (list (string * json) * string) :=
  match fuel with
  | O => None
  | S fuel' =>
      quoted ← strip_prefix (String dq "") s;
      '(key, after_key) ← string_body quoted;
      after_colon ← strip_prefix ":" after_key;
      '(v, after) ← value fuel' after_colon;
      match strip_prefix "," after, strip_prefix "}" after with
      | Some more, _ =>
          '(kvs, rest) ← members fuel' more; Some ((key, v) :: kvs, rest)
      | _, Some rest => Some ([(key, v)], rest)
      | _, _ => None
      end
  end.

Definition JSON_parse (s : string) : option json :=
  match value (2 * String.length s + 2) s with
  | Some (v, EmptyString) => Some v
  | _ => None
  end.
End ReferenceHost.

(** The stops codec of the reference host: a stop is printed as the object
    [addStop] builds, and read back field by field; it carries whole
    amounts only. *)
Module ReferenceStops.
Import ReferenceHost.

Definition status_name (st : Status) : string :=
  match st with
  | planned => "planned"
  | visited => "visited"
  | skipped => "skipped"
  end.

Definition status_of_name (s : string) : option Status :=
  if String.eqb s "planned" then Some planned
  else if String.eqb s "visited" then Some visited
  else if String.eqb s "skipped" then Some skipped
  else None.

Definition stop_to_json (s : Stop) : json :=
  JObj [("id", JStr (id s)); ("title", JStr (title s));
        ("address", JStr (address s)); ("dateTime", JStr (dateTime s));
        ("notes", JStr (notes s));
        ("cost", match cost s ≫= Z_of_float with
                 | Some z => JNum z
                 | None => JNull
                 end);
        ("status", JStr (status_name (status s)));
        ("order", JNum (Z.of_nat (order s)))].

Fixpoint field (key : string) (fields : list (string * json)) : option json :=
  match fields with
  | [] => None
  | (k, v) :: rest => if String.eqb k key then Some v else field key rest
  end.

Definition text_field (key : string) (fields : list (string * json))
  : option string :=
  match field key fields with
  | Some (JStr s) => Some s
  | _ => None
  end.

Definition stop_of_json (j : json) : option Stop :=
  match j with
  | JObj fields =>
      i ← text_field "id" fields;
      t ← text_field "title" fields;
      a ← text_field "address" fields;
      d ← text_field "dateTime" fields;
      n ← text_field "notes" fields;
      c ← match field "cost" fields with
          | Some (JNum z) => Some (Some (float_of_Z z))
          | Some JNull | None => Some None
          | _ => None
          end;
      st ← text_field "status" fields ≫= status_of_name;
      o ← match field "order" fields with
          | Some (JNum z) => Some (Z.to_nat z)
          | _ => None
          end;
      Some (mkStop i t a d n c st o)
  | _ => None
  end.

Definition JSON_stringify_stops (l : list Stop) : string :=
  JSON_stringify (JArr (map stop_to_json l)).

Definition JSON_parse_stops (s : string) : option (list Stop) :=
  match JSON_parse s with
  | Some (JArr items) => mapM stop_of_json items
  | _ => None
  end.
End ReferenceStops.

#[local] Instance reference_host : Host := {|
  parseISO := ReferenceHost.parseISO;
  Number := ReferenceHost.Number;
  toLowerCase := ReferenceHost.toLowerCase;
  JSON_parse := ReferenceHost.JSON_parse;
  JSON_stringify := ReferenceHost.JSON_stringify;
  JSON_parse_stops := ReferenceStops.JSON_parse_stops;
  JSON_stringify_stops := ReferenceStops.JSON_stringify_stops
|}.

(** The state at first render, with nothing stored. *)
Definition initial (online client : bool) : World :=
  {| stops := []; isAdding := false; isLoading := true; isOnline := online;
     aiInsights := JNull; isLoadingAi := false; supabase := client;
     localStorage := ∅; trace := [] |}.

(** Two filled-in add forms for the examples. *)
Definition borobudur : FormData :=
  mkFormData "Candi Borobudur" "Magelang" "2024-05-01" "08:00" "" "".

Definition parangtritis : FormData :=
  mkFormData "Pantai Parangtritis" "Bantul" "2024-05-01" "09:00"
    "bawa topi" "15000".

(** Three stops for the examples: breakfast done, a temple and a beach
    still planned. *)
Definition sarapan : Stop :=
  mkStop "a" "Sarapan" "Ubud" "2024-05-01T07:00" "" (Some 30000%float)
    visited 0.

Definition candi : Stop :=
  mkStop "b" "Candi Prambanan" "Sleman" "2024-05-01T09:00" "" None planned 1.

Definition pantai : Stop :=
  mkStop "c" "Pantai Kuta" "Bali" "2024-05-02T10:00" "bawa topi"
    (Some 15000%float) planned 2.

(** ** Vocabulary of the properties *)

(** Does the awaited upsert end in the [catch] block? *)
Definition upsertFails (remote : Settled (Response unit)) : bool :=
  match remote with
  | Rejects => true
  | Resolves response =>
      match error response with Some _ => true | None => false end
  end.

(** Does the awaited delete end in the [catch] block?  Its [error] field
    is never read. *)
Definition deleteFails (remote : Settled (Response unit)) : bool :=
  match remote with
  | Rejects => true
  | Resolves _ => false
  end.

(** The remote part of a persist cycle: nothing when offline or without a
    client, else the request and, on failure, the console report. *)
Definition pushed (w : World) (request : Event) (fails : bool)
    (label : string) : list Event :=
  if isOnline w && supabase w
  then request :: (if fails then [ConsoleError label] else [])
  else [].

(** The three ways the collection is changed. *)
Inductive Mutation :=
| Add (uuid : string) (formData : FormData)
| SetStatus (stopId : string) (forceStatus : option Status)
| Remove (stopId : string).

(** A state holding the given collection and nothing else. *)
Definition holding (l : list Stop) (online client : bool) : World :=
  {| stops := l; isAdding := false; isLoading := false; isOnline := online;
     aiInsights := JNull; isLoadingAi := false; supabase := client;
     localStorage := ∅; trace := [] |}.

(** Two stops that agree in every field but, possibly, the status. *)
Definition sameDetails (a b : Stop) : Prop :=
  id a = id b ∧ title a = title b ∧ address a = address b ∧
  dateTime a = dateTime b ∧ notes a = notes b ∧ cost a = cost b ∧
  order a = order b.

(** A sequence of [addStop] calls, each with its fresh id, its form data
    and the fate of its upsert. *)
Definition AddCall : Type := string * FormData * Settled (Response unit).

(** Everything the component does to the state. *)
Inductive Action :=
| Startup (query : Settled (Response (list Stop)))
| Mutate (m : Mutation) (remote : Settled (Response unit))
| Resolve (stop : Stop) (generation : Settled (option string))
| NextStopChanged (generation : Settled (option string))
| Online
| Offline.

Section Vocabulary.
Context `{Host}.

(** The time value of a stop's [dateTime]. *)
Definition instant (s : Stop) : Z := default 0 (parseISO (dateTime s)).

(** The [dateTime] of the stop denotes a date. *)
Definition wellDated (s : Stop) : Prop := is_Some (parseISO (dateTime s)).

Definition notLater (a b : Stop) : Prop := instant a ≤ instant b.

(** Non-decreasing in [dateTime]: every stop is no later than every stop
    behind it. *)
Definition chronological (l : list Stop) : Prop := StronglySorted notLater l.

Definition perform (m : Mutation) (remote : Settled (Response unit))
  : M unit :=
  match m with
  | Add uuid formData => addStop uuid formData remote
  | SetStatus stopId forceStatus => toggleStatus stopId forceStatus remote
  | Remove stopId => deleteStop stopId remote
  end.

(** The collection a mutation computes from the current one: the
    [updated] constant of [addStop], [toggleStatus] and [deleteStop]. *)
Definition updatedBy (m : Mutation) (current : list Stop) : list Stop :=
  match m with
  | Add uuid formData =>
      Array_sort byDateTime
        (current ++ [newStop uuid formData (length current)])
  | SetStatus stopId forceStatus => map (retarget stopId forceStatus) current
  | Remove stopId =>
      List.filter (λ s, negb (String.eqb (id s) stopId)) current
  end.

(** The request a mutation sends for the collection [updated], whether
    the awaited answer lands in the [catch] block, and what is then
    logged. *)
Definition request (m : Mutation) (updated : list Stop) : Event :=
  match m with
  | Remove stopId => RemoteDelete stopId
  | _ => RemoteUpsert updated
  end.

Definition remoteFails (m : Mutation) (remote : Settled (Response unit))
  : bool :=
  match m with
  | Remove _ => deleteFails remote
  | _ => upsertFails remote
  end.

Definition errorLabel (m : Mutation) : string :=
  match m with
  | Remove _ => "Supabase Delete Error:"
  | _ => "Supabase Sync Error:"
  end.

Fixpoint addAll (calls : list AddCall) : M unit :=
  match calls with
  | [] => mret tt
  | (uuid, formData, remote) :: rest =>
      addStop uuid formData remote;; addAll rest
  end.

(** The stops those calls create, in the order of the calls; the first
    one gets the order hint [n]. *)
Fixpoint created (n : nat) (calls : list AddCall) : list Stop :=
  match calls with
  | [] => []
  | (uuid, formData, _) :: rest =>
      newStop uuid formData n :: created (S n) rest
  end.

(** The date and time typed into the form denote a date. *)
Definition validDateTime (call : AddCall) : Prop :=
  is_Some (parseISO (fd_date call.1.2 +:+ "T" +:+ fd_time call.1.2)).

(** What step 1 of [loadData] shows: the cached collection if the cache
    holds a text, else the state as it was.  [None] when the cached text
    does not parse. *)
Definition provisional (w : World) : option (list Stop) :=
  match present (localStorage w !! stopsKey) with
  | Some text => JSON_parse_stops text
  | None => Some (stops w)
  end.

(** The rows step 2 of [loadData] obtains, if it obtains any. *)
Definition fetched (w : World) (query : Settled (Response (list Stop)))
  : option (list Stop) :=
  if isOnline w && supabase w then
    match query with
    | Rejects => None
    | Resolves response =>
        match error response with
        | Some _ => None
        | None => data response
        end
    end
  else None.

(** The awaited select ends in the [catch] block. *)
Definition selectFails (query : Settled (Response (list Stop))) : bool :=
  match query with
  | Rejects => true
  | Resolves response =>
      match error response with Some _ => true | None => false end
  end.

Definition act (a : Action) : M unit :=
  match a with
  | Startup query => loadData query
  | Mutate m remote => perform m remote
  | Resolve stop generation => fetchAiInsights stop generation
  | NextStopChanged generation => nextStopEffect generation
  | Online => setIsOnline true
  | Offline => setIsOnline false
  end.

(** The state after a series of actions, whether or not they threw. *)
Definition replay (actions : list Action) (w : World) : World :=
  foldl (λ w a, run (act a) w) w actions.

(** What an online generation yields: the parsed answer, or nothing when
    the call rejects or the text does not parse. *)
Definition generated (generation : Settled (option string)) : option json :=
  match generation with
  | Rejects => None
  | Resolves text => JSON_parse (textOrEmptyObject text)
  end.

End Vocabulary.

(** ** The rest of the component *)

(** [lib/supabase.ts] (lines 3-8): [createClient] is called only when
    both settings are truthy; otherwise [supabase] is [null].  (Settings
    that [createClient] itself rejects keep the module from loading; no
    state of the component describes that.) *)
Definition supabaseClient (supabaseUrl supabaseAnonKey : option string)
  : bool :=
  match present supabaseUrl, present supabaseAnonKey with
  | Some _, Some _ => true
  | _, _ => false
  end.

(** The handlers of the [online] and [offline] events (lines 48-49). *)
Definition handleOnline : M unit := setIsOnline true.
Definition handleOffline : M unit := setIsOnline false.

(** [isLoading && stops.length === 0] (line 259): the loading screen is
    rendered instead of the application. *)
Definition showsLoadingScreen (w : World) : bool :=
  isLoading w && bool_decide (length (stops w) = 0%nat).

(** Truthiness of a parsed value: [null], [false], [0] and the empty
    string are falsy, every array and object is truthy. *)
Definition truthy_json (v : json) : bool :=
  match v with
  | JNull => false
  | JBool b => b
  | JNum z => negb (z =? 0)
  | JStr s => truthy s
  | JArr _ | JObj _ => true
  end.

(** [value.key] for one of the keys the panel reads.  [JObj] lists the
    own properties of the object in the order [Object.keys] gives them;
    arrays, texts, numbers and booleans have no such property, so the
    access yields [undefined] ([None]). *)
Fixpoint lookupField (key : string) (fields : list (string * json))
  : option json :=
  match fields with
  | [] => None
  | (k, v) :: rest => if String.eqb k key then Some v else lookupField key rest
  end.

Definition getProperty (value : json) (key : string) : option json :=
  match value with
  | JObj fields => lookupField key fields
  | _ => None
  end.

(** [a || b] on texts. *)
Definition or_text (a b : string) : string := if truthy a then a else b.

Section Rendering.
(** [Number.prototype.toString] on the integers a [JNum] carries. *)
Variable numberToString : Z → string.

(** [String(value)], which is also what [Array.prototype.join] applies to
    an element that is neither [null] nor [undefined]; an array prints as
    its own [join(",")]. *)
Fixpoint ToString (v : json) : string :=
  match v with
  | JNull => "null"
  | JBool true => "true"
  | JBool false => "false"
  | JNum z => numberToString z
  | JStr s => s
  | JArr items =>
      String.concat ","
        (map (λ item, match item with JNull => "" | _ => ToString item end)
           items)
  | JObj _ => "[object Object]"
  end.

(** One element under [join]: [null] prints as the empty text. *)
Definition joined (item : json) : string :=
  match item with JNull => "" | _ => ToString item end.

(** [Object.values(val)] for an array or an object. *)
Definition Object_values (v : json) : list json :=
  match v with
  | JArr items => items
  | JObj fields => map snd fields
  | _ => []
  end.

(** [renderAiValue] (lines 241-248); [None] is [undefined]. *)
Definition renderAiValue (val : option json) : string :=
  match val with
  | None => ""
  | Some v =>
      if negb (truthy_json v) then ""
      else match v with
           | JStr s => s
           | JArr _ | JObj _ =>
               String.concat ", " (map joined (Object_values v))
           | _ => ToString v
           end
  end.

(** The four texts of the insight panel (lines 535-569), in the order
    costs, weather, recommendations, tips; [None] when [aiInsights] is
    falsy and the panel shows its waiting line instead. *)
Definition panelTexts (insight : json)
  : option (string * string * string * string) :=
  if truthy_json insight then
    Some (or_text (renderAiValue (getProperty insight "costs"))
            "Cek tiket masuk di lokasi.",
          or_text (renderAiValue (getProperty insight "weather"))
            "Siapkan payung untuk berjaga-jaga.",
          or_text (renderAiValue (getProperty insight "recommendations"))
            "Jelajahi area sekitar.",
          renderAiValue (getProperty insight "tips"))
  else None.
End Rendering.

(** [nextStop && (isOnline || aiInsights)] (line 500): the insight panel
    is rendered. *)
Definition showsInsightPanel `{Host} (w : World) : bool :=
  match nextStop (stops w) with
  | Some _ => isOnline w || truthy_json (aiInsights w)
  | None => false
  end.

(** The [forceStatus] arguments of the [toggleStatus] calls behind the
    buttons of one stop in the list view (lines 672-697). *)
Definition listButtons (s : Stop) : list (option Status) :=
  (if bool_decide (status s ≠ visited) then [Some visited] else []) ++
  (if bool_decide (status s = skipped) then [Some planned] else []) ++
  (if bool_decide (status s = planned) then [Some skipped] else []).

(** Every [toggleStatus] call a rendered button makes, as the id and the
    target it passes: one button per stop of the skipped section (line
    336), the two buttons of the next-stop card (lines 462 and 469), and
    the buttons of the list view. *)
Definition statusButtons `{Host} (stops : list Stop)
  : list (string * option Status) :=
  map (λ s, (id s, Some planned)) (skippedStops stops) ++
  match nextStop stops with
  | Some s => [(id s, None); (id s, Some skipped)]
  | None => []
  end ++
  flat_map (λ s, map (pair (id s)) (listButtons s)) (sortedStops stops).

(** The state a reload starts from: fresh [useState] cells over the
    storage the browser kept. *)
Definition reloaded (online : bool) (w : World) : World :=
  mkWorld [] false true online JNull false (supabase w) (localStorage w) [].

(** Only cache writes, no request and no console report. *)
Definition localWrite (e : Event) : Prop :=
  match e with LocalSet _ _ => True | _ => False end.

(** A call of the generation service. *)
Definition generationCall (e : Event) : Prop :=
  match e with Generate _ _ => True | _ => False end.

Ltac run_op :=
  unfold mbind, M_bind, mret, M_ret, try_catch, try_finally, throw, await,
    throw_if_error, console_error, emit, get, getItem, setItem, setStops,
    setIsAdding, setIsLoading, setAiInsights, setIsLoadingAi; simpl.

(** Closing the side conditions of the worked examples. *)
Ltac dated := repeat constructor; vm_compute; eexists; reflexivity.
Ltac decided := apply (bool_decide_unpack _); vm_compute; exact I.
Ltac ordered :=
  unfold chronological;
  repeat match goal with
         | |- StronglySorted _ _ => constructor
         | |- Forall _ _ => constructor
         | |- notLater _ _ => vm_compute; discriminate
         end.

(** * Properties *)

(** ** Sorting by date *)

Section Chronology.
Context `{Host}.

Lemma byDateTime_later a b :
  wellDated a → wellDated b →
  (0 <? SortCompare byDateTime a b) = (instant b <? instant a).
Proof.
  intros [ta Ha] [tb Hb].
  unfold SortCompare, byDateTime, instant, compareAsc.
  rewrite Ha, Hb. simpl.
  destruct (Z.ltb_spec (ta - tb) 0); simpl.
  - symmetry. apply Z.ltb_ge. lia.
  - destruct (Z.ltb_spec 0 (ta - tb)); simpl; symmetry.
    + apply Z.ltb_lt. lia.
    + apply Z.ltb_ge. lia.
Qed.

Lemma sort_insert_perm {A} (cmp : A → A → option Z) x l :
  sort_insert cmp x l ≡ₚ x :: l.
Proof.
  induction l as [|y l IH]; simpl; [done|].
  destruct (0 <? SortCompare cmp x y); [|done].
  rewrite IH. apply Permutation_swap.
Qed.

Lemma Array_sort_perm {A} (cmp : A → A → option Z) l :
  Array_sort cmp l ≡ₚ l.
Proof.
  induction l as [|x l IH]; simpl; [done|].
  by rewrite sort_insert_perm, IH.
Qed.

Lemma Array_sort_length {A} (cmp : A → A → option Z) l :
  length (Array_sort cmp l) = length l.
Proof. by rewrite Array_sort_perm. Qed.

Lemma Array_sort_wellDated l :
  Forall wellDated l → Forall wellDated (Array_sort byDateTime l).
Proof. by rewrite Array_sort_perm. Qed.

Lemma sort_insert_chronological x l :
  wellDated x → Forall wellDated l → chronological l →
  chronological (sort_insert byDateTime x l).
Proof.
  intros Hx Hl Hs.
  induction Hs as [|y l Hs IH Hy]; simpl.
  - repeat constructor.
  - apply Forall_cons in Hl as [Hwy Hl].
    rewrite byDateTime_later by done.
    destruct (Z.ltb_spec (instant y) (instant x)) as [Hlt|Hge].
    + constructor; [by apply IH|].
      rewrite sort_insert_perm. constructor; [unfold notLater; lia|done].
    + constructor; [by constructor|].
      constructor; [done|].
      eapply Forall_impl; [exact Hy|]. unfold notLater. intros; lia.
Qed.

Lemma Array_sort_chronological l :
  Forall wellDated l → chronological (Array_sort byDateTime l).
Proof.
  induction l as [|x l IH]; simpl; intros Hl; [constructor|].
  apply Forall_cons in Hl as [Hx Hl].
  apply sort_insert_chronological; [done| |by apply IH].
  by apply Array_sort_wellDated.
Qed.

(** Stability: the stops of any one instant keep their relative order. *)
Lemma sort_insert_stable t x l :
  wellDated x → Forall wellDated l →
  filter (λ s, instant s = t) (sort_insert byDateTime x l)
  = filter (λ s, instant s = t) (x :: l).
Proof.
  intros Hx Hl.
  induction l as [|y l IH]; simpl; [done|].
  apply Forall_cons in Hl as [Hy Hl].
  rewrite byDateTime_later by done.
  destruct (Z.ltb_spec (instant y) (instant x)) as [Hlt|Hge]; [|done].
  rewrite (filter_cons _ y), IH, !filter_cons by done.
  repeat case_decide; try done; lia.
Qed.

Lemma Array_sort_stable t l :
  Forall wellDated l →
  filter (λ s, instant s = t) (Array_sort byDateTime l)
  = filter (λ s, instant s = t) l.
Proof.
  induction l as [|x l IH]; simpl; intros Hl; [done|].
  apply Forall_cons in Hl as [Hx Hl].
  rewrite sort_insert_stable by (done || by apply Array_sort_wellDated).
  by rewrite !filter_cons, IH.
Qed.

(** Sorting a chronological list changes nothing. *)
Lemma Array_sort_chronological_id l :
  Forall wellDated l → chronological l → Array_sort byDateTime l = l.
Proof.
  intros Hl Hs.
  induction Hs as [|x l Hs IH Hx]; simpl; [done|].
  apply Forall_cons in Hl as [Hwx Hl].
  rewrite IH by done.
  destruct l as [|y l]; simpl; [done|].
  apply Forall_cons in Hl as [Hwy _], Hx as [Hxy _].
  rewrite byDateTime_later by done.
  destruct (Z.ltb_spec (instant y) (instant x)); [|done].
  unfold notLater in Hxy. lia.
Qed.

Lemma find_head_filter (f : Stop → bool) (P : Stop → Prop)
    `{∀ x, Decision (P x)} l s :
  List.find f l = Some s → P s → (∀ x, P x → f x = true) →
  head (filter P l) = Some s.
Proof.
  intros Hfind Hs Himp.
  induction l as [|x l IH]; simpl in *; [done|].
  rewrite filter_cons.
  destruct (f x) eqn:Hfx.
  - injection Hfind as ->. by rewrite decide_True.
  - rewrite decide_False; [by apply IH|].
    intros HP. apply Himp in HP. congruence.
Qed.

Lemma find_sorted_least (f : Stop → bool) l s :
  chronological l → List.find f l = Some s →
  ∀ x, x ∈ l → f x = true → notLater s x.
Proof.
  intros Hs Hfind x Hin Hfx.
  induction Hs as [|y l Hs IH Hy]; simpl in *; [done|].
  destruct (f y) eqn:Hfy.
  - injection Hfind as ->.
    apply elem_of_cons in Hin as [->|Hin]; [unfold notLater; lia|].
    by eapply Forall_forall in Hy.
  - apply elem_of_cons in Hin as [->|Hin]; [congruence|].
    by apply IH.
Qed.
End Chronology.

(** ** What one run of an operation does *)

Section Runs.
Context `{Host}.

Lemma syncData_run remote updated w :
  syncData remote updated w =
  (Done tt,
   mkWorld updated (isAdding w) (isLoading w) (isOnline w) (aiInsights w)
     (isLoadingAi w) (supabase w)
     (<[stopsKey := JSON_stringify_stops updated]> (localStorage w))
     (trace w ++ LocalSet stopsKey (JSON_stringify_stops updated)
        :: pushed w (RemoteUpsert updated) (upsertFails remote)
             "Supabase Sync Error:")).
Proof.
  unfold syncData, pushed. run_op.
  destruct (isOnline w), (supabase w); simpl; try done.
  destruct remote as [|[d [msg|]]]; run_op;
    by rewrite <- ?app_assoc.
Qed.

Lemma addStop_run uuid formData remote w :
  let updated :=
    Array_sort byDateTime
      (stops w ++ [newStop uuid formData (length (stops w))]) in
  addStop uuid formData remote w =
  (Done tt,
   mkWorld updated false (isLoading w) (isOnline w) (aiInsights w)
     (isLoadingAi w) (supabase w)
     (<[stopsKey := JSON_stringify_stops updated]> (localStorage w))
     (trace w ++ LocalSet stopsKey (JSON_stringify_stops updated)
        :: pushed w (RemoteUpsert updated) (upsertFails remote)
             "Supabase Sync Error:")).
Proof.
  intros updated. unfold addStop.
  unfold mbind at 1, M_bind at 1, get at 1.
  unfold mbind, M_bind. fold updated. rewrite syncData_run. done.
Qed.

Lemma toggleStatus_run stopId forceStatus remote w :
  let updated := map (retarget stopId forceStatus) (stops w) in
  toggleStatus stopId forceStatus remote w =
  (Done tt,
   mkWorld updated (isAdding w) (isLoading w) (isOnline w) (aiInsights w)
     (isLoadingAi w) (supabase w)
     (<[stopsKey := JSON_stringify_stops updated]> (localStorage w))
     (trace w ++ LocalSet stopsKey (JSON_stringify_stops updated)
        :: pushed w (RemoteUpsert updated) (upsertFails remote)
             "Supabase Sync Error:")).
Proof.
  intros updated. unfold toggleStatus.
  unfold mbind, M_bind, get. fold updated. by rewrite syncData_run.
Qed.

Lemma deleteStop_run stopId remote w :
  let updated :=
    List.filter (λ s, negb (String.eqb (id s) stopId)) (stops w) in
  deleteStop stopId remote w =
  (Done tt,
   mkWorld updated (isAdding w) (isLoading w) (isOnline w) (aiInsights w)
     (isLoadingAi w) (supabase w)
     (<[stopsKey := JSON_stringify_stops updated]> (localStorage w))
     (trace w ++ LocalSet stopsKey (JSON_stringify_stops updated)
        :: pushed w (RemoteDelete stopId) (deleteFails remote)
             "Supabase Delete Error:")).
Proof.
  intros updated. unfold deleteStop, pushed. run_op. fold updated.
  destruct (isOnline w), (supabase w); simpl; try done.
  destruct remote as [|r]; run_op; by rewrite <- ?app_assoc.
Qed.
End Runs.

(** ** The store's mutations *)

Section Mutations.
Context `{Host}.

(** Every mutation ends normally, with the collection it computed both in
    memory and in the cache, whatever the remote side does. *)
Lemma perform_run m remote w :
  outcome (perform m remote) w = Done tt ∧
  localStorage (run (perform m remote) w)
  = <[stopsKey := JSON_stringify_stops (stops (run (perform m remote) w))]>
      (localStorage w) ∧
  trace (run (perform m remote) w)
  = trace w
    ++ LocalSet stopsKey
         (JSON_stringify_stops (stops (run (perform m remote) w)))
    :: pushed w (request m (stops (run (perform m remote) w)))
         (remoteFails m remote) (errorLabel m).
Proof.
  unfold run, outcome.
  destruct m; simpl;
    rewrite ?addStop_run, ?toggleStatus_run, ?deleteStop_run; done.
Qed.

Lemma perform_stops m remote w :
  stops (run (perform m remote) w) = updatedBy m (stops w).
Proof.
  unfold run.
  destruct m; simpl;
    rewrite ?addStop_run, ?toggleStatus_run, ?deleteStop_run; done.
Qed.

Lemma retarget_other stopId forceStatus s :
  id s ≠ stopId → retarget stopId forceStatus s = s.
Proof.
  intros Hne. unfold retarget.
  destruct (String.eqb_spec (id s) stopId); done.
Qed.

Lemma retarget_same stopId forceStatus s :
  id s = stopId →
  retarget stopId forceStatus s
  = withStatus s (nextStatus forceStatus (status s)).
Proof.
  intros Heq. unfold retarget.
  destruct (String.eqb_spec (id s) stopId); done.
Qed.

Lemma retarget_sameDetails stopId forceStatus s :
  sameDetails s (retarget stopId forceStatus s).
Proof.
  unfold retarget, sameDetails.
  by destruct (String.eqb (id s) stopId).
Qed.

Lemma retarget_absent stopId forceStatus l :
  (∀ s, s ∈ l → id s ≠ stopId) → map (retarget stopId forceStatus) l = l.
Proof.
  intros Hall. induction l as [|s l IH]; simpl; [done|].
  rewrite retarget_other by (apply Hall; left).
  f_equal. apply IH. intros s' Hs'. apply Hall. by right.
Qed.
End Mutations.

(** ** Claims about the store *)

Section StoreClaims.
Context `{Host}.

(** C3: every mutation (add, status change, delete) ends without an
    uncaught error; it overwrites the local cache with the full updated
    collection before any remote request is made; and the collection and
    the cache it leaves do not depend on how the remote request ends. *)
Theorem mutation_is_local_first m remote w :
  let w' := run (perform m remote) w in
  outcome (perform m remote) w = Done tt ∧
  stops w' = updatedBy m (stops w) ∧
  localStorage w'
  = <[stopsKey := JSON_stringify_stops (stops w')]> (localStorage w) ∧
  trace w'
  = trace w ++ LocalSet stopsKey (JSON_stringify_stops (stops w'))
      :: pushed w (request m (stops w')) (remoteFails m remote)
           (errorLabel m) ∧
  ∀ remote',
    stops (run (perform m remote') w) = stops w' ∧
    localStorage (run (perform m remote') w) = localStorage w'.
Proof.
  intros w'. subst w'.
  destruct (perform_run m remote w) as (Hout & Hls & Htr).
  repeat split; try done.
  - apply perform_stops.
  - by rewrite !perform_stops.
  - destruct (perform_run m remote' w) as (_ & Hls' & _).
    rewrite Hls, Hls'. by rewrite !perform_stops.
Qed.

(** C6: [toggleStatus] with an explicit target gives every stop of that
    id exactly the target as its status; with no target it turns visited
    into planned and planned or skipped into visited; every other field
    of such a stop is kept; other stops are untouched; and when no stop
    has the id the collection is unchanged while the persist cycle (cache
    write, then the upsert when online with a client) still runs and no
    error is raised. *)
Theorem toggleStatus_sets_or_flips stopId forceStatus remote w :
  let w' := run (toggleStatus stopId forceStatus remote) w in
  outcome (toggleStatus stopId forceStatus remote) w = Done tt ∧
  (∀ i s, stops w !! i = Some s → id s = stopId →
     ∃ s', stops w' !! i = Some s' ∧ sameDetails s s' ∧
       status s' = match forceStatus with
                   | Some target => target
                   | None =>
                       match status s with
                       | visited => planned
                       | planned | skipped => visited
                       end
                   end) ∧
  (∀ i s, stops w !! i = Some s → id s ≠ stopId → stops w' !! i = Some s) ∧
  length (stops w') = length (stops w) ∧
  ((∀ s, s ∈ stops w → id s ≠ stopId) →
     stops w' = stops w ∧
     localStorage w'
     = <[stopsKey := JSON_stringify_stops (stops w)]> (localStorage w) ∧
     trace w'
     = trace w ++ LocalSet stopsKey (JSON_stringify_stops (stops w))
         :: pushed w (RemoteUpsert (stops w)) (upsertFails remote)
              "Supabase Sync Error:").
Proof.
  intros w'. subst w'. unfold run, outcome.
  rewrite toggleStatus_run. simpl.
  split; [done|]. split; [|split; [|split]].
  - intros i s Hi Hid. exists (retarget stopId forceStatus s).
    rewrite list_lookup_fmap, Hi. simpl.
    split; [done|]. split; [apply retarget_sameDetails|].
    rewrite retarget_same by done. unfold nextStatus. simpl.
    destruct forceStatus; [done|]. by destruct (status s).
  - intros i s Hi Hid. rewrite list_lookup_fmap, Hi. simpl.
    by rewrite retarget_other.
  - apply length_map.
  - intros Habsent. by rewrite retarget_absent.
Qed.
End StoreClaims.

Section AddSequences.
Context `{Host}.

Lemma created_wellDated n calls :
  Forall validDateTime calls → Forall wellDated (created n calls).
Proof.
  intros Hv. revert n.
  induction Hv as [|[[u fd] r] calls Hc Hv IH]; intros n; simpl;
    constructor; auto.
Qed.

Lemma addAll_run calls w :
  Forall wellDated (stops w) → Forall validDateTime calls →
  outcome (addAll calls) w = Done tt ∧
  Forall wellDated (stops (run (addAll calls) w)) ∧
  stops (run (addAll calls) w)
    ≡ₚ stops w ++ created (length (stops w)) calls ∧
  ∀ t, filter (λ s, instant s = t) (stops (run (addAll calls) w))
       = filter (λ s, instant s = t)
           (stops w ++ created (length (stops w)) calls).
Proof.
  intros Hw Hv. revert w Hw.
  induction Hv as [|[[u fd] r] calls Hc Hv IH]; intros w Hw.
  - simpl. by rewrite app_nil_r.
  - unfold run, outcome in *. simpl.
    unfold mbind, M_bind. rewrite addStop_run.
    set (w1 := mkWorld _ _ _ _ _ _ _ _ _).
    assert (Hnew : Forall wellDated
                     (stops w ++ [newStop u fd (length (stops w))])).
    { apply Forall_app. split; [done|]. by constructor. }
    assert (Hlen : length (stops w1) = S (length (stops w))).
    { simpl. rewrite Array_sort_length, length_app. simpl. lia. }
    destruct (IH w1) as (Hout & Hwd & Hperm & Hfil).
    { simpl. by apply Array_sort_wellDated. }
    rewrite Hlen in Hperm, Hfil.
    split; [done|]. split; [done|]. split.
    + rewrite Hperm. simpl. rewrite Array_sort_perm.
      by rewrite <- app_assoc.
    + intros t. rewrite Hfil. simpl stops.
      rewrite (cons_middle _ (stops w) (created _ _)), app_assoc.
      rewrite !filter_app, Array_sort_stable by done.
      by rewrite !filter_app.
Qed.
End AddSequences.

Section DerivedClaims.
Context `{Host}.

Lemma costOrZero_retarget stopId forceStatus s :
  costOrZero (retarget stopId forceStatus s) = costOrZero s.
Proof. unfold retarget. by destruct (String.eqb (id s) stopId). Qed.

Lemma totalCost_same_costs l l' :
  Forall2 (λ a b, cost a = cost b) l l' → totalCost l = totalCost l'.
Proof.
  unfold totalCost. intros Hsame. generalize 0%float.
  induction Hsame as [|a b l l' Hab _ IH]; intros start; simpl; [done|].
  replace (costOrZero a) with (costOrZero b); [apply IH|].
  unfold costOrZero. by rewrite Hab.
Qed.

(** C9: [totalCost] is the sum, taken along the collection with the
    addition of JavaScript numbers, of the costs of all stops, a missing
    (or NaN) cost counting as 0: the empty collection costs 0 and each
    further stop adds its cost.  It depends on the costs alone, not on
    the status or any other field, and no call of [toggleStatus] changes
    it. *)
Theorem totalCost_counts_every_stop stopId forceStatus remote w :
  totalCost [] = 0%float ∧
  (∀ l s,
     totalCost (l ++ [s])
     = PrimFloat.add (totalCost l)
         match cost s with
         | Some c =>
             if PrimFloat.is_nan c || PrimFloat.is_zero c then 0%float else c
         | None => 0%float
         end) ∧
  (∀ l l', Forall2 (λ a b, cost a = cost b) l l' →
     totalCost l = totalCost l') ∧
  totalCost (stops (run (toggleStatus stopId forceStatus remote) w))
  = totalCost (stops w).
Proof.
  split; [done|]. split; [|split].
  - intros l s. unfold totalCost. rewrite fold_left_app. simpl.
    unfold costOrZero, or_number, falsy_number. by destruct (cost s).
  - apply totalCost_same_costs.
  - unfold run. rewrite toggleStatus_run. simpl.
    apply totalCost_same_costs.
    induction (stops w) as [|s l IH]; simpl; constructor; [|done].
    unfold retarget. by destruct (String.eqb (id s) stopId).
Qed.

Lemma find_elem_of (f : Stop → bool) l s :
  List.find f l = Some s → s ∈ l ∧ f s = true.
Proof.
  intros Hf. apply find_some in Hf as [Hin Hfs].
  split; [by apply list_elem_of_In|done].
Qed.

Lemma find_is_head_filter (P : Stop → Prop) `{∀ x, Decision (P x)} l :
  List.find (λ s, bool_decide (P s)) l = head (filter P l).
Proof.
  induction l as [|x l IH]; simpl; [done|].
  rewrite filter_cons. case_bool_decide.
  - by rewrite decide_True.
  - by rewrite decide_False.
Qed.

(** C7: [nextStop] is the first planned stop in sorted order.  When all
    stops are dated it is none exactly if no stop is planned; otherwise
    it is a planned stop of the collection, no planned stop is earlier,
    and among the planned stops of its own instant it is the one that
    comes first in the collection. *)
Theorem nextStop_is_earliest_planned l :
  Forall wellDated l →
  nextStop l = head (filter (λ s, status s = planned) (sortedStops l)) ∧
  match nextStop l with
  | None => ∀ s, s ∈ l → status s ≠ planned
  | Some s =>
      s ∈ l ∧ status s = planned ∧
      (∀ x, x ∈ l → status x = planned → instant s ≤ instant x) ∧
      head (filter (λ x, status x = planned ∧ instant x = instant s) l)
      = Some s
  end.
Proof.
  intros Hl. split; [apply find_is_head_filter|].
  unfold nextStop, sortedStops.
  destruct (List.find _ _) as [s|] eqn:Hfind.
  - pose proof (find_elem_of _ _ _ Hfind) as [Hin Hpl].
    apply bool_decide_eq_true in Hpl.
    rewrite Array_sort_perm in Hin.
    split; [done|]. split; [done|]. split.
    + intros x Hx Hxp.
      eapply (find_sorted_least _ _ _ (Array_sort_chronological l Hl) Hfind).
      * by rewrite Array_sort_perm.
      * by apply bool_decide_eq_true.
    + rewrite <- list_filter_filter.
      rewrite <- (Array_sort_stable (instant s) l) by done.
      rewrite list_filter_filter.
      eapply find_head_filter; [exact Hfind|done|].
      intros x [Hx _]. by apply bool_decide_eq_true.
  - intros s Hs Hp.
    eapply find_none in Hfind.
    + apply bool_decide_eq_false in Hfind. done.
    + apply list_elem_of_In. by rewrite Array_sort_perm.
Qed.

(** C8: after any sequence of [addStop] calls on the empty collection,
    with dates that parse, [sortedStops] is non-decreasing in [dateTime],
    holds exactly the stops created, and lists the stops of any one
    instant in the order they have in the collection, which is the order
    in which they were added. *)
Theorem sortedStops_after_adds calls w :
  stops w = [] → Forall validDateTime calls →
  let w' := run (addAll calls) w in
  outcome (addAll calls) w = Done tt ∧
  chronological (sortedStops (stops w')) ∧
  sortedStops (stops w') ≡ₚ created 0 calls ∧
  ∀ t, filter (λ s, instant s = t) (sortedStops (stops w'))
       = filter (λ s, instant s = t) (stops w') ∧
       filter (λ s, instant s = t) (stops w')
       = filter (λ s, instant s = t) (created 0 calls).
Proof.
  intros Hempty Hv w'. subst w'.
  destruct (addAll_run calls w) as (Hout & Hwd & Hperm & Hfil).
  { rewrite Hempty. constructor. }
  { done. }
  rewrite Hempty in Hperm, Hfil. simpl in Hperm, Hfil.
  unfold sortedStops. split; [done|]. split; [|split].
  - by apply Array_sort_chronological.
  - by rewrite Array_sort_perm.
  - intros t. by rewrite Array_sort_stable.
Qed.
End DerivedClaims.

(** ** Startup load *)

Section LoadClaims.
Context `{Host}.

Lemma loadData_run query w shown :
  provisional w = Some shown →
  outcome (loadData query) w = Done tt ∧
  isLoading (run (loadData query) w) = false ∧
  match fetched w query with
  | Some rows =>
      stops (run (loadData query) w) = rows ∧
      localStorage (run (loadData query) w)
      = <[stopsKey := JSON_stringify_stops rows]> (localStorage w) ∧
      trace (run (loadData query) w)
      = trace w
        ++ [RemoteSelect; LocalSet stopsKey (JSON_stringify_stops rows)]
  | None =>
      stops (run (loadData query) w) = shown ∧
      localStorage (run (loadData query) w) = localStorage w ∧
      trace (run (loadData query) w)
      = trace w
        ++ pushed w RemoteSelect (selectFails query) "Supabase Load Error:"
  end.
Proof.
  unfold provisional, fetched, pushed, run, outcome, loadData.
  intros Hshown. run_op.
  destruct (present (localStorage w !! stopsKey)) as [text|];
    [rewrite Hshown|injection Hshown as <-]; run_op;
    (destruct (isOnline w), (supabase w); simpl;
     [|by rewrite app_nil_r..]);
    (destruct query as [|[[rows|] [msg|]]]; run_op;
     by rewrite <- ?app_assoc).
Qed.

(** A cached text that does not parse makes [loadData] throw before the
    remote store is consulted. *)
Lemma loadData_unreadable_cache query w text :
  present (localStorage w !! stopsKey) = Some text →
  JSON_parse_stops text = None →
  outcome (loadData query) w = Thrown SyntaxError.
Proof.
  intros Hp Hn. unfold outcome, loadData. run_op. by rewrite Hp, Hn.
Qed.

(** C4: on startup, with a readable (or no) cache, [loadData] ends
    normally.  If the remote fetch succeeds, its rows become the state
    and the cache content, whatever the cache showed; if it rejects or
    answers with an error, the state shown from the cache and the cache
    itself stay, and the failure is only logged. *)
Theorem loadData_remote_wins_or_cache_stays query w shown :
  provisional w = Some shown →
  let w' := run (loadData query) w in
  outcome (loadData query) w = Done tt ∧
  isLoading w' = false ∧
  (∀ rows,
     isOnline w = true → supabase w = true →
     query = Resolves (mkResponse (Some rows) None) →
     stops w' = rows ∧
     localStorage w'
     = <[stopsKey := JSON_stringify_stops rows]> (localStorage w)) ∧
  (selectFails query = true →
     stops w' = shown ∧
     localStorage w' = localStorage w ∧
     trace w'
     = trace w ++ pushed w RemoteSelect true "Supabase Load Error:").
Proof.
  intros Hshown w'. subst w'.
  destruct (loadData_run query w shown Hshown) as (Hout & Hload & Hcase).
  split; [done|]. split; [done|]. split.
  - intros rows Hon Hcl ->. unfold fetched in Hcase.
    rewrite Hon, Hcl in Hcase. simpl in Hcase. by destruct Hcase as (? & ? & _).
  - intros Hfail.
    assert (fetched w query = None) as Hnone.
    { unfold fetched. destruct (isOnline w && supabase w); [|done].
      destruct query as [|[d [msg|]]]; done. }
    by rewrite Hnone, Hfail in Hcase.
Qed.
End LoadClaims.

(** ** Insight resolution *)

Section InsightClaims.
Context `{Host}.

Lemma present_Some_inv cached text :
  present cached = Some text → cached = Some text ∧ truthy text = true.
Proof.
  destruct cached as [t|]; simpl; [|done].
  destruct (truthy t) eqn:Ht; [|done]. by intros [= ->].
Qed.

Lemma present_Some text :
  truthy text = true → present (Some text) = Some text.
Proof. simpl. by intros ->. Qed.

Lemma truthy_nonempty text : truthy text = true ↔ text ≠ "".
Proof. by destruct text. Qed.

Lemma fetch_cached stop generation w text :
  present (localStorage w !! cacheKey stop) = Some text →
  fetchAiInsights stop generation w =
  match JSON_parse text with
  | Some v =>
      (Done tt,
       mkWorld (stops w) (isAdding w) (isLoading w) (isOnline w) v
         (isLoadingAi w) (supabase w) (localStorage w) (trace w))
  | None => (Thrown SyntaxError, w)
  end.
Proof.
  intros Hp. unfold fetchAiInsights, parse_or_throw. run_op. rewrite Hp.
  destruct (JSON_parse text); done.
Qed.

Lemma fetch_offline stop generation w :
  present (localStorage w !! cacheKey stop) = None →
  isOnline w = false →
  fetchAiInsights stop generation w =
  (Done tt,
   mkWorld (stops w) (isAdding w) (isLoading w) (isOnline w)
     (getSmartFallback (title stop)) (isLoadingAi w) (supabase w)
     (localStorage w) (trace w)).
Proof.
  intros Hp Hoff. unfold fetchAiInsights. run_op.
  rewrite Hp, Hoff. simpl. by rewrite ?Hoff.
Qed.

Lemma fetch_online stop generation w :
  present (localStorage w !! cacheKey stop) = None →
  isOnline w = true →
  fetchAiInsights stop generation w =
  match generated generation with
  | Some parsed =>
      (Done tt,
       mkWorld (stops w) (isAdding w) (isLoading w) (isOnline w) parsed
         false (supabase w)
         (<[cacheKey stop := JSON_stringify parsed]> (localStorage w))
         (trace w ++ [Generate (title stop) (address stop);
                      LocalSet (cacheKey stop) (JSON_stringify parsed)]))
  | None =>
      (Done tt,
       mkWorld (stops w) (isAdding w) (isLoading w) (isOnline w)
         (getSmartFallback (title stop)) false (supabase w)
         (localStorage w)
         (trace w ++ [Generate (title stop) (address stop);
                      ConsoleError "AI Insights Error:"]))
  end.
Proof.
  intros Hp Hon.
  unfold fetchAiInsights, generated, parse_or_throw. run_op.
  rewrite Hp, Hon. simpl.
  destruct generation as [|text]; run_op;
    [by rewrite <- app_assoc, ?Hon|].
  destruct (JSON_parse (textOrEmptyObject text)); run_op;
    by rewrite <- !app_assoc, ?Hon.
Qed.

(** Whatever happens, the cache is left alone or gains the parsed answer
    of a generation made online. *)
Lemma fetch_writes_only_generated stop generation w :
  localStorage (run (fetchAiInsights stop generation) w) = localStorage w ∨
  (isOnline w = true ∧
   present (localStorage w !! cacheKey stop) = None ∧
   ∃ parsed, generated generation = Some parsed ∧
     aiInsights (run (fetchAiInsights stop generation) w) = parsed ∧
     localStorage (run (fetchAiInsights stop generation) w)
     = <[cacheKey stop := JSON_stringify parsed]> (localStorage w)).
Proof.
  unfold run.
  destruct (present (localStorage w !! cacheKey stop)) as [text|] eqn:Hp.
  - rewrite (fetch_cached _ _ _ text Hp).
    destruct (JSON_parse text); by left.
  - destruct (isOnline w) eqn:Hon.
    + rewrite fetch_online by done.
      destruct (generated generation) as [parsed|] eqn:Hg; [|by left].
      right. split; [done|]. split; [done|]. by exists parsed.
    + rewrite fetch_offline by done. by left.
Qed.

(** No action removes or rewrites a non-empty entry stored under a key
    other than the collection's. *)
Lemma loadData_storage query w :
  localStorage (run (loadData query) w) = localStorage w ∨
  ∃ text, localStorage (run (loadData query) w)
          = <[stopsKey := text]> (localStorage w).
Proof.
  unfold run, loadData. run_op.
  destruct (present (localStorage w !! stopsKey)) as [text|];
    [destruct (JSON_parse_stops text); run_op; [|by left]|];
    (destruct (isOnline w), (supabase w); simpl; try (by left));
    (destruct query as [|[[rows|] [msg|]]]; run_op; eauto).
Qed.

Lemma act_keeps_entry a w key text :
  key ≠ stopsKey → localStorage w !! key = Some text →
  truthy text = true →
  localStorage (run (act a) w) !! key = Some text.
Proof.
  intros Hkey Hentry Htext.
  assert (Hins : ∀ v, <[stopsKey := v]> (localStorage w) !! key = Some text).
  { intros v. by rewrite lookup_insert_ne. }
  destruct a as [query|m remote|stop g|g| |]; simpl.
  - destruct (loadData_storage query w) as [->|[v ->]]; auto.
  - destruct (perform_run m remote w) as (_ & -> & _). apply Hins.
  - destruct (fetch_writes_only_generated stop g w)
      as [->|(_ & Hp & parsed & _ & _ & ->)]; [done|].
    rewrite lookup_insert_ne; [done|].
    intros Heq'. rewrite Heq', Hentry, present_Some in Hp; done.
  - unfold run, nextStopEffect. unfold mbind, M_bind, get.
    destruct (nextStop (stops w)) as [stop|]; [|done].
    destruct (fetch_writes_only_generated stop g w)
      as [Heq|(_ & Hp & parsed & _ & _ & Heq)]; unfold run in Heq;
      rewrite Heq; [done|].
    rewrite lookup_insert_ne; [done|].
    intros Heq'. rewrite Heq', Hentry, present_Some in Hp; done.
  - done.
  - done.
Qed.

Lemma replay_keeps_entry actions w key text :
  key ≠ stopsKey → localStorage w !! key = Some text →
  truthy text = true →
  localStorage (replay actions w) !! key = Some text.
Proof.
  intros Hkey Hentry Htext. revert w Hentry.
  induction actions as [|a actions IH]; intros w Hentry; simpl; [done|].
  apply IH. by apply act_keeps_entry.
Qed.

Lemma cacheKey_not_stopsKey stop : cacheKey stop ≠ stopsKey.
Proof. done. Qed.

End InsightClaims.

Section ResolverClaims.
Context `{Host}.


(** C10: online and with nothing cached under the stop's key (ai_cache_
    followed by the stop's id), the resolver ends normally.  Whatever
    value the answer's text parses to (the empty object stands in for a
    missing or empty text) becomes the insight and is stored under that
    key, where every later action leaves it; no shape is checked.  The
    heuristic is used, and nothing stored, exactly when the call rejects
    or the text does not parse. *)
Theorem generation_accepted_unvalidated stop generation w :
  let key := "ai_cache_" +:+ id stop in
  present (localStorage w !! key) = None →
  isOnline w = true →
  JSON_parse "{}" = Some (JObj []) →
  let w' := run (fetchAiInsights stop generation) w in
  outcome (fetchAiInsights stop generation) w = Done tt ∧
  (∀ text parsed,
     generation = Resolves text →
     JSON_parse (textOrEmptyObject text) = Some parsed →
     aiInsights w' = parsed ∧
     localStorage w' = <[key := JSON_stringify parsed]> (localStorage w) ∧
     trace w'
     = trace w ++ [Generate (title stop) (address stop);
                   LocalSet key (JSON_stringify parsed)] ∧
     (JSON_stringify parsed ≠ "" →
      ∀ actions,
        localStorage (replay actions w') !! key
        = Some (JSON_stringify parsed))) ∧
  (generation = Resolves None ∨ generation = Resolves (Some "") →
     aiInsights w' = JObj [] ∧
     localStorage w' !! key = Some (JSON_stringify (JObj []))) ∧
  (generated generation = None →
     aiInsights w' = getSmartFallback (title stop) ∧
     localStorage w' = localStorage w ∧
     trace w'
     = trace w ++ [Generate (title stop) (address stop);
                   ConsoleError "AI Insights Error:"]) ∧
  (generated generation = None ↔
   generation = Rejects ∨
   ∃ text, generation = Resolves (Some text) ∧ text ≠ "" ∧
           JSON_parse text = None).
Proof.
  intros key Hp Hon Hempty w'. subst key w'. unfold run, outcome.
  rewrite fetch_online by done.
  split; [by destruct (generated generation)|].
  split; [|split; [|split]].
  - intros text parsed -> Hparse. simpl. rewrite Hparse. simpl.
    repeat split; try done.
    intros Hne actions.
    apply (replay_keeps_entry actions _ (cacheKey stop)).
    + apply cacheKey_not_stopsKey.
    + simpl. apply lookup_insert_eq.
    + by apply truthy_nonempty.
  - intros [->| ->]; simpl; rewrite Hempty; simpl;
      (split; [done|apply (lookup_insert_eq _ (cacheKey stop))]).
  - intros ->. done.
  - split.
    + destruct generation as [|[text|]]; simpl; [by left| |congruence].
      destruct text as [|c text]; simpl; [congruence|].
      intros Hnone. right. by exists (String c text).
    + intros [->|(text & -> & Hne & Hnone)]; [done|].
      simpl. by destruct text.
Qed.
End ResolverClaims.


(** ** Worked examples on the reference host *)

Lemma toggleStatus_sets_or_flips_witness :
  let there := mkStop "a" "Pantai Kuta" "Bali" "2024-05-02T10:00" ""
                 None skipped 3 in
  let w := holding [there] true true in
  stops (run (toggleStatus "b" (Some visited) Rejects) w) = [there] ∧
  trace (run (toggleStatus "b" (Some visited) Rejects) w)
  = [LocalSet stopsKey (JSON_stringify_stops [there]);
     RemoteUpsert [there]; ConsoleError "Supabase Sync Error:"] ∧
  (∃ s', stops (run (toggleStatus "a" None Rejects) w) !! 0%nat = Some s' ∧
         sameDetails there s' ∧ status s' = visited) ∧
  (∃ s', stops (run (toggleStatus "a" (Some planned) Rejects) w) !! 0%nat
         = Some s' ∧
         sameDetails there s' ∧ status s' = planned).
Proof.
  intros there w.
  destruct (toggleStatus_sets_or_flips "b" (Some visited) Rejects w)
    as (_ & _ & _ & _ & Habsent).
  destruct (toggleStatus_sets_or_flips "a" None Rejects w)
    as (_ & Hflip & _).
  destruct (toggleStatus_sets_or_flips "a" (Some planned) Rejects w)
    as (_ & Hset & _).
  destruct Habsent as (Hsame & _ & Htrace).
  - intros s Hs. apply list_elem_of_singleton in Hs. subst s. discriminate.
  - split; [exact Hsame|]. split; [exact Htrace|]. split.
    + apply (Hflip 0%nat there); reflexivity.
    + apply (Hset 0%nat there); reflexivity.
Defined.

Lemma nextStop_is_earliest_planned_witness :
  let breakfast := mkStop "a" "Sarapan" "Ubud" "2024-05-01T07:00" ""
                     (Some 30000%float) visited 0 in
  let temple := mkStop "b" "Candi" "Gianyar" "2024-05-01T09:00" ""
                  None planned 1 in
  let beach := mkStop "c" "Pantai" "Sanur" "2024-05-01T09:00" ""
                 (Some 10000%float) planned 2 in
  let market := mkStop "d" "Pasar" "Ubud" "2024-05-01T08:00" ""
                  (Some 0%float) skipped 3 in
  nextStop [beach; market; temple; breakfast] = Some beach.
Proof.
  intros breakfast temple beach market.
  assert (Hdated : Forall wellDated [beach; market; temple; breakfast]).
  { repeat constructor; vm_compute; eexists; reflexivity. }
  destruct (nextStop_is_earliest_planned _ Hdated) as [Hfirst _].
  rewrite Hfirst. reflexivity.
Defined.

Lemma sortedStops_after_adds_witness :
  let nine := mkFormData "Candi Borobudur" "Magelang" "2024-05-01" "09:00"
                "" "50000" in
  let eight := mkFormData "Pantai Parangtritis" "Bantul" "2024-05-01"
                 "08:00" "bawa topi" "" in
  let w' := run (addAll [("u1", nine, Rejects);
                         ("u2", eight, Resolves (mkResponse None None))])
              (initial true true) in
  chronological (sortedStops (stops w')) ∧
  filter (λ s, instant s = 1714550400000) (sortedStops (stops w'))
  = [newStop "u2" eight 1].
Proof.
  intros nine eight w'. subst w'.
  destruct (sortedStops_after_adds
              [("u1", nine, Rejects);
               ("u2", eight, Resolves (mkResponse None None))]
              (initial true true)) as (_ & Hsorted & _ & Hstable).
  - reflexivity.
  - repeat constructor; vm_compute; eexists; reflexivity.
  - split; [exact Hsorted|].
    destruct (Hstable 1714550400000) as [-> ->]. vm_compute. reflexivity.
Defined.

Lemma loadData_remote_wins_or_cache_stays_witness :
  let cachedStop := mkStop "a" "Candi Borobudur" "Magelang"
                      "2024-05-01T08:00" "" (Some 50000%float) visited 0 in
  let remoteStop := mkStop "b" "Pantai Kuta" "Bali" "2024-05-02T10:00"
                      "bawa topi" None planned 0 in
  let w := mkWorld [] false true true JNull false true
             {[ stopsKey := JSON_stringify_stops [cachedStop] ]} [] in
  stops (run (loadData (Resolves (mkResponse (Some [remoteStop]) None))) w)
  = [remoteStop] ∧
  stops (run (loadData Rejects) w) = [cachedStop] ∧
  localStorage (run (loadData Rejects) w) = localStorage w.
Proof.
  intros cachedStop remoteStop w.
  assert (Hshown : provisional w = Some [cachedStop])
    by (vm_compute; reflexivity).
  destruct (loadData_remote_wins_or_cache_stays
              (Resolves (mkResponse (Some [remoteStop]) None)) w _ Hshown)
    as (_ & _ & Hwin & _).
  destruct (loadData_remote_wins_or_cache_stays Rejects w _ Hshown)
    as (_ & _ & _ & Hkept).
  destruct (Hwin [remoteStop]) as [Hrows _]; try reflexivity.
  destruct Hkept as (Hstops & Hstore & _); [reflexivity|].
  split; [exact Hrows|]. split; [exact Hstops|exact Hstore].
Defined.

(** *** Scenarios of the specification *)

(** Scenario A: the one stop added is the next stop. *)
Example scenario_next_stop_after_add :
  title <$> nextStop (stops (run (addStop "u1" borobudur Rejects)
                               (initial false false)))
  = Some "Candi Borobudur".
Proof. vm_compute. reflexivity. Qed.

(** Scenario B: added at 09:00 and then at 08:00, read back 08:00 first. *)
Example scenario_sorted_after_two_adds :
  title <$> sortedStops
              (stops (run (addAll [("u1", parangtritis, Rejects);
                                   ("u2", borobudur, Rejects)])
                        (initial true true)))
  = ["Candi Borobudur"; "Pantai Parangtritis"].
Proof. vm_compute. reflexivity. Qed.

(** Scenario D: skipped and then planned again, the earliest stop is the
    next stop once more. *)
Example scenario_reactivated_stop_is_next :
  let w := run (addAll [("u1", parangtritis, Rejects);
                        ("u2", borobudur, Rejects)]) (initial false false) in
  let passed := run (toggleStatus "u2" (Some skipped) Rejects) w in
  let again := run (toggleStatus "u2" (Some planned) Rejects) passed in
  id <$> nextStop (stops passed) = Some "u1" ∧
  id <$> nextStop (stops again) = Some "u2".
Proof. vm_compute. split; reflexivity. Qed.

(** Scenario E: every remote call fails, and the collection read from the
    cache at startup is shown, changed and persisted all the same. *)
Example scenario_remote_always_fails :
  let before := run (addStop "u1" borobudur Rejects) (initial true true) in
  let restarted := mkWorld [] false true true JNull false true
                     (localStorage before) [] in
  let loaded := run (loadData Rejects) restarted in
  let marked := run (toggleStatus "u1" None Rejects) loaded in
  outcome (loadData Rejects) restarted = Done tt ∧
  stops loaded = stops before ∧
  status <$> stops marked = [visited] ∧
  JSON_parse_stops <$> (localStorage marked !! stopsKey)
  = Some (Some (stops marked)).
Proof. vm_compute. repeat split. Qed.

(** Marking a stop visited twice is the same as marking it once. *)
Example scenario_visited_twice :
  let w := run (addStop "u1" borobudur Rejects) (initial false false) in
  let once := run (toggleStatus "u1" (Some visited) Rejects) w in
  stops (run (toggleStatus "u1" (Some visited) Rejects) once) = stops once.
Proof. vm_compute. reflexivity. Qed.

(** * Further properties of the component *)

(** ** Sorting and filtering *)

Section SortFilter.
Context `{Host}.

Lemma filter_sort_insert_out {A} (cmp : A → A → option Z) (f : A → bool) x l :
  f x = false → List.filter f (sort_insert cmp x l) = List.filter f l.
Proof.
  intros Hx. induction l as [|y l IH]; simpl; [by rewrite Hx|].
  destruct (0 <? SortCompare cmp x y); simpl; [by rewrite IH|by rewrite Hx].
Qed.

Lemma sort_insert_front x l :
  wellDated x → Forall wellDated l → Forall (notLater x) l →
  sort_insert byDateTime x l = x :: l.
Proof.
  intros Hx Hl Hle. destruct l as [|y l]; simpl; [done|].
  apply Forall_cons in Hl as [Hy _], Hle as [Hxy _].
  rewrite byDateTime_later by done.
  destruct (Z.ltb_spec (instant y) (instant x)); [|done].
  unfold notLater in Hxy. lia.
Qed.

Lemma Forall_List_filter {A} (P : A → Prop) (f : A → bool) l :
  Forall P l → Forall P (List.filter f l).
Proof.
  induction 1 as [|x l Hx Hl IH]; simpl; [constructor|].
  destruct (f x); [by constructor|done].
Qed.

Lemma chronological_List_filter (f : Stop → bool) l :
  chronological l → chronological (List.filter f l).
Proof.
  induction 1 as [|x l Hs IH Hx]; simpl; [constructor|].
  destruct (f x); [|done].
  constructor; [done|]. by apply Forall_List_filter.
Qed.

Lemma filter_sort_insert (f : Stop → bool) x l :
  wellDated x → Forall wellDated l → chronological l →
  List.filter f (sort_insert byDateTime x l)
  = if f x then sort_insert byDateTime x (List.filter f l)
    else List.filter f l.
Proof.
  intros Hx Hl Hs.
  destruct (f x) eqn:Hfx; [|by apply filter_sort_insert_out].
  induction Hs as [|y l Hs IH Hy]; simpl; [by rewrite Hfx|].
  apply Forall_cons in Hl as [Hwy Hl].
  rewrite byDateTime_later by done.
  destruct (Z.ltb_spec (instant y) (instant x)) as [Hlt|Hge]; simpl.
  - destruct (f y) eqn:Hfy; simpl; [|by apply IH].
    rewrite byDateTime_later by done.
    destruct (Z.ltb_spec (instant y) (instant x)); [|lia].
    by rewrite IH.
  - rewrite Hfx. symmetry.
    apply (sort_insert_front x (List.filter f (y :: l))); [done| |].
    + apply Forall_List_filter. by constructor.
    + apply Forall_List_filter. constructor; [done|].
      eapply Forall_impl; [exact Hy|]. unfold notLater. intros; lia.
Qed.

(** Filtering the sorted list is sorting the filtered list. *)
Lemma filter_Array_sort (f : Stop → bool) l :
  Forall wellDated l →
  List.filter f (Array_sort byDateTime l)
  = Array_sort byDateTime (List.filter f l).
Proof.
  induction l as [|x l IH]; simpl; intros Hl; [done|].
  apply Forall_cons in Hl as [Hx Hl].
  rewrite filter_sort_insert;
    [|done|by apply Array_sort_wellDated|by apply Array_sort_chronological].
  destruct (f x); simpl; by rewrite IH.
Qed.

Lemma List_filter_all {A} (f : A → bool) l :
  (∀ x, x ∈ l → f x = true) → List.filter f l = l.
Proof.
  intros Hall. induction l as [|x l IH]; simpl; [done|].
  rewrite Hall by left. f_equal. apply IH. intros y Hy. apply Hall. by right.
Qed.

Lemma elem_of_List_filter {A} (f : A → bool) l x :
  x ∈ List.filter f l ↔ x ∈ l ∧ f x = true.
Proof. rewrite !list_elem_of_In. apply filter_In. Qed.

Lemma List_filter_sublist {A} (f : A → bool) l :
  List.filter f l `sublist_of` l.
Proof.
  induction l as [|x l IH]; simpl; [done|].
  destruct (f x); [by apply sublist_skip|by apply sublist_cons].
Qed.

Lemma stopId_neq_negb (s : Stop) stopId :
  negb (String.eqb (id s) stopId) = true ↔ id s ≠ stopId.
Proof. destruct (String.eqb_spec (id s) stopId); simpl; split; done. Qed.
End SortFilter.

(** ** Deleting and adding *)

Section DeleteAndAdd.
Context `{Host}.

(** X1: [deleteStop] removes every stop of the given id and no other, and
    keeps the rest in their order.  When no stop has the id the collection
    is unchanged, yet the cache is rewritten and, online with a client,
    the delete request is still sent. *)
Theorem deleteStop_removes_exactly stopId remote w :
  let w' := run (deleteStop stopId remote) w in
  (∀ s, s ∈ stops w' ↔ s ∈ stops w ∧ id s ≠ stopId) ∧
  stops w' `sublist_of` stops w ∧
  ((∀ s, s ∈ stops w → id s ≠ stopId) →
     stops w' = stops w ∧
     trace w'
     = trace w ++ LocalSet stopsKey (JSON_stringify_stops (stops w))
         :: pushed w (RemoteDelete stopId) (deleteFails remote)
              "Supabase Delete Error:").
Proof.
  intros w'. subst w'. unfold run. rewrite deleteStop_run. simpl.
  split; [|split].
  - intros s. rewrite elem_of_List_filter. by rewrite stopId_neq_negb.
  - apply List_filter_sublist.
  - intros Habsent.
    rewrite List_filter_all; [done|].
    intros s Hs. apply stopId_neq_negb. by apply Habsent.
Qed.

(** X2: a delete request that resolves is taken for a success whatever it
    carries: an [error] in the answer is neither thrown nor logged, so
    the run is the same as for an answer without error, and the only new
    events are the cache write and the request. *)
Theorem deleteStop_ignores_answer stopId response w :
  deleteStop stopId (Resolves response) w
  = deleteStop stopId (Resolves (mkResponse None None)) w ∧
  trace (run (deleteStop stopId (Resolves response)) w)
  = trace w
    ++ LocalSet stopsKey
         (JSON_stringify_stops
            (stops (run (deleteStop stopId (Resolves response)) w)))
    :: (if isOnline w && supabase w then [RemoteDelete stopId] else []).
Proof.
  unfold run. rewrite !deleteStop_run. simpl. split; [done|].
  unfold pushed. by destruct (isOnline w && supabase w).
Qed.

(** X3: no mutation touches the insight cache: whatever is stored under
    the key of any stop, the deleted one included, is still there
    afterwards. *)
Theorem mutation_keeps_insight_cache m remote stop w :
  localStorage (run (perform m remote) w) !! cacheKey stop
  = localStorage w !! cacheKey stop.
Proof.
  destruct (perform_run m remote w) as (_ & -> & _).
  apply lookup_insert_ne. apply not_eq_sym, cacheKey_not_stopsKey.
Qed.

(** X4: on a collection that is dated and in order, adding a stop under a
    fresh id and then deleting that id gives back the collection. *)
Theorem delete_undoes_add uuid formData remote remote' w :
  Forall wellDated (stops w) → chronological (stops w) →
  is_Some (parseISO (fd_date formData +:+ "T" +:+ fd_time formData)) →
  (∀ s, s ∈ stops w → id s ≠ uuid) →
  stops (run (deleteStop uuid remote')
           (run (addStop uuid formData remote) w))
  = stops w.
Proof.
  intros Hwd Hs Hnew Hfresh. unfold run.
  rewrite addStop_run, deleteStop_run. simpl.
  rewrite filter_Array_sort.
  - rewrite List.filter_app. simpl. rewrite String.eqb_refl. simpl.
    rewrite app_nil_r, List_filter_all.
    + by apply Array_sort_chronological_id.
    + intros s Hin. apply stopId_neq_negb. by apply Hfresh.
  - apply Forall_app. split; [done|]. by constructor.
Qed.

(** X6: [addStop] keeps every stop it found and adds exactly one, built
    from the form: the id drawn, the title, address and notes as typed,
    the date and time joined by T, the cost read by [Number] with 0 for
    NaN (never missing), planned, and the previous length as order hint.
    The collection grows by one and the form is closed. *)
Theorem addStop_adds_one uuid formData remote w :
  let w' := run (addStop uuid formData remote) w in
  ∃ added,
    stops w' ≡ₚ stops w ++ [added] ∧
    id added = uuid ∧
    title added = fd_title formData ∧
    address added = fd_address formData ∧
    dateTime added = fd_date formData +:+ "T" +:+ fd_time formData ∧
    notes added = fd_notes formData ∧
    cost added
    = Some (if PrimFloat.is_nan (Number (fd_cost formData))
               || PrimFloat.is_zero (Number (fd_cost formData))
            then 0%float else Number (fd_cost formData)) ∧
    status added = planned ∧
    order added = length (stops w) ∧
    length (stops w') = S (length (stops w)) ∧
    isAdding w' = false.
Proof.
  intros w'. subst w'. unfold run. rewrite addStop_run. simpl.
  exists (newStop uuid formData (length (stops w))).
  split; [apply Array_sort_perm|].
  repeat split; try done.
  rewrite Array_sort_length, length_app. simpl. lia.
Qed.
End DeleteAndAdd.

(** ** Invariants of the collection *)

Section Invariants.
Context `{Host}.

Lemma retarget_id stopId forceStatus s :
  id (retarget stopId forceStatus s) = id s.
Proof. unfold retarget. by destruct (String.eqb (id s) stopId). Qed.

Lemma retarget_instant stopId forceStatus s :
  instant (retarget stopId forceStatus s) = instant s.
Proof. unfold retarget. by destruct (String.eqb (id s) stopId). Qed.

Lemma retarget_wellDated stopId forceStatus s :
  wellDated (retarget stopId forceStatus s) ↔ wellDated s.
Proof. unfold retarget. by destruct (String.eqb (id s) stopId). Qed.

Lemma retarget_all_wellDated stopId forceStatus l :
  Forall wellDated l → Forall wellDated (map (retarget stopId forceStatus) l).
Proof.
  intros Hl. apply Forall_fmap. eapply Forall_impl; [exact Hl|].
  intros s Hs. by apply retarget_wellDated.
Qed.

Lemma retarget_chronological stopId forceStatus l :
  chronological l → chronological (map (retarget stopId forceStatus) l).
Proof.
  induction 1 as [|x l Hs IH Hx]; simpl; constructor; [done|].
  apply Forall_fmap. eapply Forall_impl; [exact Hx|].
  intros y Hy. unfold notLater in *. simpl. by rewrite !retarget_instant.
Qed.

Lemma updatedBy_wellDated m l :
  Forall wellDated l →
  (∀ uuid formData, m = Add uuid formData →
     is_Some (parseISO (fd_date formData +:+ "T" +:+ fd_time formData))) →
  Forall wellDated (updatedBy m l).
Proof.
  intros Hl Hnew. destruct m as [uuid fd|stopId force|stopId]; simpl.
  - apply Array_sort_wellDated, Forall_app. split; [done|].
    constructor; [|done]. by apply (Hnew uuid fd).
  - by apply retarget_all_wellDated.
  - by apply Forall_List_filter.
Qed.

(** X7: the stored collection stays in date order.  From a collection
    that is dated and in order, every mutation (an add with a date that
    parses, any status change, any delete) leaves a collection that is
    dated and in order, so [sortedStops] reads it back as it is. *)
Theorem mutation_keeps_date_order m remote w :
  Forall wellDated (stops w) → chronological (stops w) →
  (∀ uuid formData, m = Add uuid formData →
     is_Some (parseISO (fd_date formData +:+ "T" +:+ fd_time formData))) →
  let w' := run (perform m remote) w in
  Forall wellDated (stops w') ∧ chronological (stops w') ∧
  sortedStops (stops w') = stops w'.
Proof.
  intros Hwd Hs Hnew w'. subst w'. rewrite perform_stops.
  assert (Hwd' : Forall wellDated (updatedBy m (stops w)))
    by by apply updatedBy_wellDated.
  assert (Hs' : chronological (updatedBy m (stops w))).
  { destruct m as [uuid fd|stopId force|stopId]; simpl in *.
    - apply Array_sort_chronological, Forall_app. split; [done|].
      constructor; [|done]. by apply (Hnew uuid fd).
    - by apply retarget_chronological.
    - by apply chronological_List_filter. }
  split; [done|]. split; [done|].
  by apply Array_sort_chronological_id.
Qed.

Lemma List_filter_ids_sublist (f : Stop → bool) l :
  map id (List.filter f l) `sublist_of` map id l.
Proof. apply fmap_sublist, List_filter_sublist. Qed.

(** X8: ids stay unique.  If no two stops share an id, the same holds
    after every mutation, provided an add brings an id not yet in use. *)
Theorem mutation_keeps_ids_unique m remote w :
  NoDup (map id (stops w)) →
  (∀ uuid formData, m = Add uuid formData → uuid ∉ map id (stops w)) →
  NoDup (map id (stops (run (perform m remote) w))).
Proof.
  intros Hnd Hfresh. rewrite perform_stops.
  destruct m as [uuid fd|stopId force|stopId]; simpl.
  - rewrite Array_sort_perm, fmap_app. simpl.
    apply NoDup_app. split; [done|]. split.
    + intros x Hx Hin. apply list_elem_of_singleton in Hin. subst x.
      by apply (Hfresh uuid fd).
    + apply NoDup_singleton.
  - rewrite <- list_fmap_compose.
    erewrite list_fmap_ext; [exact Hnd|].
    intros i s _. apply retarget_id.
  - apply (sublist_NoDup _ _ Hnd (List_filter_ids_sublist _ _)).
Qed.

(** X9: [toggleStatus] changes nothing but the status: the collection
    keeps its length, and position by position every stop keeps its id,
    title, address, date, notes, cost and order hint. *)
Theorem toggleStatus_changes_status_only stopId forceStatus remote w :
  let w' := run (toggleStatus stopId forceStatus remote) w in
  length (stops w') = length (stops w) ∧
  ∀ i s, stops w !! i = Some s →
    ∃ s', stops w' !! i = Some s' ∧ sameDetails s s'.
Proof.
  intros w'. subst w'. unfold run. rewrite toggleStatus_run. simpl.
  split; [apply length_map|].
  intros i s Hi. exists (retarget stopId forceStatus s).
  rewrite list_lookup_fmap, Hi. split; [done|apply retarget_sameDetails].
Qed.

Lemma withStatus_same s : withStatus s (status s) = s.
Proof. by destruct s. Qed.

Lemma retarget_twice stopId first second s :
  retarget stopId second (retarget stopId first s)
  = if String.eqb (id s) stopId
    then withStatus s (nextStatus second (nextStatus first (status s)))
    else s.
Proof.
  unfold retarget at 2.
  destruct (String.eqb (id s) stopId) eqn:Hid.
  - unfold retarget. simpl. by rewrite Hid.
  - unfold retarget. by rewrite Hid.
Qed.

(** X10: setting an explicit status twice is the same as setting it once,
    for the collection and for the cache. *)
Theorem toggleStatus_target_idempotent stopId target remote remote' w :
  let once := run (toggleStatus stopId (Some target) remote) w in
  let twice := run (toggleStatus stopId (Some target) remote') once in
  stops twice = stops once ∧ localStorage twice = localStorage once.
Proof.
  intros once twice. subst once twice. unfold run.
  rewrite !toggleStatus_run. simpl.
  assert (Hsame : map (retarget stopId (Some target))
                    (map (retarget stopId (Some target)) (stops w))
                  = map (retarget stopId (Some target)) (stops w)).
  { rewrite <- list_fmap_compose. apply list_fmap_ext.
    intros i s _. simpl. rewrite retarget_twice. unfold retarget.
    by destruct (String.eqb (id s) stopId). }
  rewrite Hsame. split; [done|]. by rewrite insert_insert_eq.
Qed.

(** X11: skipping a stop and then planning it again gives back the
    collection, as long as the stops of that id were planned. *)
Theorem reactivate_undoes_skip stopId remote remote' w :
  (∀ s, s ∈ stops w → id s = stopId → status s = planned) →
  stops (run (toggleStatus stopId (Some planned) remote')
           (run (toggleStatus stopId (Some skipped) remote) w))
  = stops w.
Proof.
  intros Hplanned. unfold run. rewrite !toggleStatus_run. simpl.
  rewrite <- list_fmap_compose.
  rewrite <- (list_fmap_id (stops w)) at 2.
  apply Forall_fmap_ext, Forall_forall. intros s Hs. simpl.
  rewrite retarget_twice.
  destruct (String.eqb_spec (id s) stopId) as [Hid|]; [|done].
  simpl. rewrite <- (Hplanned s Hs Hid). apply withStatus_same.
Qed.

End Invariants.

(** ** The next stop and the status lists *)

Section NextStop.
Context `{Host}.

Lemma unique_id l (x y : Stop) :
  NoDup (map id l) → x ∈ l → y ∈ l → id x = id y → x = y.
Proof.
  induction l as [|z l IH]; simpl; intros Hnd Hx Hy Hid; [by inversion Hx|].
  apply NoDup_cons in Hnd as [Hz Hnd].
  apply elem_of_cons in Hx as [->|Hx], Hy as [->|Hy]; try done.
  - exfalso. apply Hz. rewrite Hid. by apply list_elem_of_fmap_2.
  - exfalso. apply Hz. rewrite <- Hid. by apply list_elem_of_fmap_2.
  - by apply IH.
Qed.

Lemma nextStop_planned_member l s :
  nextStop l = Some s → s ∈ l ∧ status s = planned.
Proof.
  intros Hn. apply find_elem_of in Hn as [Hin Hp].
  unfold sortedStops in Hin. rewrite Array_sort_perm in Hin.
  split; [done|]. by apply bool_decide_eq_true in Hp.
Qed.

Lemma nextStop_least l s x :
  Forall wellDated l → nextStop l = Some s →
  x ∈ l → status x = planned → instant s ≤ instant x.
Proof.
  intros Hl Hn Hx Hp.
  apply (find_sorted_least _ _ _ (Array_sort_chronological l Hl) Hn x).
  - by rewrite Array_sort_perm.
  - by apply bool_decide_eq_true.
Qed.

Lemma nextStop_None l :
  nextStop l = None ↔ ∀ x, x ∈ l → status x ≠ planned.
Proof.
  unfold nextStop, sortedStops. split.
  - intros Hn x Hx Hp. eapply find_none in Hn.
    + by apply bool_decide_eq_false in Hn.
    + apply list_elem_of_In. by rewrite Array_sort_perm.
  - intros Hall.
    destruct (List.find _ _) as [s|] eqn:Hf; [|done].
    apply find_elem_of in Hf as [Hin Hp].
    rewrite Array_sort_perm in Hin. apply bool_decide_eq_true in Hp.
    by destruct (Hall s Hin).
Qed.

(** X13: completing the next stop moves on.  With dated stops and unique
    ids, after the toggle without target on the next stop the new next
    stop, if there is one, is another planned stop of the collection and
    is not earlier than the one completed; there is none exactly when the
    completed stop was the only planned one. *)
Theorem completing_next_stop_advances remote w s :
  Forall wellDated (stops w) → NoDup (map id (stops w)) →
  nextStop (stops w) = Some s →
  match nextStop (stops (run (toggleStatus (id s) None remote) w)) with
  | Some s' =>
      s' ∈ stops w ∧ status s' = planned ∧ id s' ≠ id s ∧
      instant s ≤ instant s'
  | None => ∀ x, x ∈ stops w → status x = planned → x = s
  end.
Proof.
  intros Hwd Hnd Hnext. unfold run. rewrite toggleStatus_run. simpl.
  destruct (nextStop_planned_member _ _ Hnext) as [Hs Hsp].
  destruct (nextStop (map _ _)) as [s'|] eqn:Hnext'.
  - destruct (nextStop_planned_member _ _ Hnext') as [Hin' Hp'].
    apply list_elem_of_fmap in Hin' as (x & -> & Hx).
    destruct (String.eqb_spec (id x) (id s)) as [Hid|Hid].
    + assert (x = s) as -> by by apply (unique_id (stops w)).
      rewrite retarget_same in Hp' by done. simpl in Hp'.
      rewrite Hsp in Hp'. done.
    + rewrite retarget_other in * by done.
      repeat split; try done. by apply (nextStop_least (stops w)).
  - intros x Hx Hp.
    destruct (String.eqb_spec (id x) (id s)) as [Hid|Hid];
      [by apply (unique_id (stops w))|].
    exfalso. apply (proj1 (nextStop_None _) Hnext' x); [|done].
    apply list_elem_of_fmap. exists x. by rewrite retarget_other.
Qed.

Lemma status_counts (L : list Stop) :
  (length (List.filter (λ s, bool_decide (status s = visited)) L)
   + length (List.filter (λ s, bool_decide (status s = skipped)) L)
   + length (List.filter (λ s, bool_decide (status s = planned)) L)
   = length L)%nat.
Proof.
  induction L as [|s L IH]; simpl; [done|].
  destruct (status s); simpl; lia.
Qed.

Lemma find_None_filter_nil {A} (f : A → bool) L :
  List.find f L = None ↔ List.filter f L = [].
Proof.
  induction L as [|x L IH]; simpl; [done|].
  destruct (f x); [done|exact IH].
Qed.

(** X14: the two status lists hold exactly the visited and the skipped
    stops of the collection; the next stop is in neither; together they
    never outnumber the collection, and they account for all of it
    exactly when there is no next stop. *)
Theorem status_lists_cover l :
  (∀ s, s ∈ completedStops l ↔ s ∈ l ∧ status s = visited) ∧
  (∀ s, s ∈ skippedStops l ↔ s ∈ l ∧ status s = skipped) ∧
  (∀ s, nextStop l = Some s →
     (s ∉ completedStops l) ∧ (s ∉ skippedStops l)) ∧
  (length (completedStops l) + length (skippedStops l) ≤ length l)%nat ∧
  (nextStop l = None ↔
   (length (completedStops l) + length (skippedStops l) = length l)%nat).
Proof.
  assert (Hc : ∀ s, s ∈ completedStops l ↔ s ∈ l ∧ status s = visited).
  { intros s. unfold completedStops, sortedStops.
    rewrite elem_of_List_filter, Array_sort_perm.
    by rewrite bool_decide_eq_true. }
  assert (Hk : ∀ s, s ∈ skippedStops l ↔ s ∈ l ∧ status s = skipped).
  { intros s. unfold skippedStops, sortedStops.
    rewrite elem_of_List_filter, Array_sort_perm.
    by rewrite bool_decide_eq_true. }
  pose proof (status_counts (sortedStops l)) as Hcount.
  fold (completedStops l) (skippedStops l) in Hcount.
  unfold sortedStops in Hcount at 2. rewrite Array_sort_length in Hcount.
  split; [done|]. split; [done|]. split; [|split].
  - intros s Hn. apply nextStop_planned_member in Hn as [_ Hp].
    rewrite Hc, Hk. split; intros [_ Hst]; congruence.
  - lia.
  - unfold nextStop. rewrite find_None_filter_nil. split.
    + intros Hnil. rewrite Hnil in Hcount. simpl in Hcount. lia.
    + intros Hall. apply length_zero_iff_nil. lia.
Qed.

Lemma listButtons_not_visited s target :
  target ∈ listButtons s → status s ≠ visited.
Proof.
  unfold listButtons. destruct (status s); simpl; [done| |done].
  intros Hin. by apply elem_of_nil in Hin.
Qed.

Lemma statusButtons_owner l stopId target :
  (stopId, target) ∈ statusButtons l →
  ∃ s, s ∈ l ∧ id s = stopId ∧ status s ≠ visited ∧
       nextStatus target (status s) ≠ status s.
Proof.
  unfold statusButtons. rewrite !elem_of_app.
  intros [Hsk|[Hcard|Hlist]].
  - apply list_elem_of_fmap in Hsk as (s & [= -> ->] & Hs).
    unfold skippedStops, sortedStops in Hs.
    apply elem_of_List_filter in Hs as [Hs Hst].
    rewrite Array_sort_perm in Hs. apply bool_decide_eq_true in Hst.
    exists s. rewrite Hst. by repeat split.
  - destruct (nextStop l) as [s|] eqn:Hn; [|by apply elem_of_nil in Hcard].
    apply nextStop_planned_member in Hn as [Hs Hp].
    exists s. rewrite Hp.
    apply elem_of_cons in Hcard as [[= -> ->]|Hcard]; [by repeat split|].
    apply list_elem_of_singleton in Hcard as [= -> ->]. by repeat split.
  - apply list_elem_of_In, in_flat_map in Hlist as (s & Hs & Hb).
    apply list_elem_of_In in Hs, Hb.
    unfold sortedStops in Hs. rewrite Array_sort_perm in Hs.
    apply list_elem_of_fmap in Hb as (t & [= -> ->] & Ht).
    exists s. split; [done|]. split; [done|].
    split; [by eapply listButtons_not_visited|].
    unfold listButtons in Ht.
    destruct (status s); simpl in Ht;
      repeat (apply elem_of_cons in Ht as [->|Ht]; [done|]);
      by apply elem_of_nil in Ht.
Qed.

End NextStop.

(** ** Crossing between visited and skipped *)

Section StatusCrossings.
Context `{Host}.

(** C2 (as amended): one [toggleStatus] call changes only stops of the
    given id.  It turns a skipped stop into a visited one exactly when no
    target is given or visited is the explicit target, as the button
    rendered in the list view for every stop that is not visited does.
    It turns a visited stop into a skipped one exactly when skipped is
    the explicit target, which no rendered button passes for a visited
    stop: with unique ids, a call made by a rendered status button leaves
    every visited stop as it is. *)
Theorem toggleStatus_between_visited_and_skipped
    stopId forceStatus remote w i s s' :
  stops w !! i = Some s →
  stops (run (toggleStatus stopId forceStatus remote) w) !! i = Some s' →
  (id s ≠ stopId → s' = s) ∧
  (status s = skipped →
     (status s' = visited ↔
      id s = stopId ∧ (forceStatus = None ∨ forceStatus = Some visited))) ∧
  (status s = visited →
     (status s' = skipped ↔ id s = stopId ∧ forceStatus = Some skipped)) ∧
  ((stopId, forceStatus) ∈ statusButtons (stops w) →
   NoDup (map id (stops w)) → status s = visited → s' = s).
Proof.
  intros Hi Hi'. unfold run in Hi'. rewrite toggleStatus_run in Hi'.
  simpl in Hi'. rewrite list_lookup_fmap, Hi in Hi'. simpl in Hi'.
  injection Hi' as <-.
  split; [by apply retarget_other|]. split; [|split].
  - intros Hsk. unfold retarget, nextStatus.
    destruct (String.eqb_spec (id s) stopId) as [Hid|Hid]; simpl.
    + rewrite Hsk. destruct forceStatus as [[]|]; simpl; split;
        try done; try (intros [_ [?|?]]; done); auto.
    + rewrite Hsk. split; [done|]. by intros [? _].
  - intros Hv. unfold retarget, nextStatus.
    destruct (String.eqb_spec (id s) stopId) as [Hid|Hid]; simpl.
    + rewrite Hv. destruct forceStatus as [[]|]; simpl; split;
        try done; try (intros [_ ?]; done); auto.
    + rewrite Hv. split; [done|]. by intros [? _].
  - intros Hbutton Hnd Hv. apply retarget_other. intros Hid.
    destruct (statusButtons_owner _ _ _ Hbutton)
      as (owner & Howner & Hoid & Host & _).
    assert (s = owner) as ->; [|congruence].
    apply (unique_id (stops w)); try done; [|congruence].
    eapply list_elem_of_lookup_2, Hi.
Qed.
End StatusCrossings.

(** ** Loading, reloading and working without a remote store *)

Section Persistence.
Context `{Host}.

Lemma perform_connection m remote w :
  isOnline (run (perform m remote) w) = isOnline w ∧
  supabase (run (perform m remote) w) = supabase w.
Proof.
  unfold run.
  destruct m; simpl;
    rewrite ?addStop_run, ?toggleStatus_run, ?deleteStop_run; done.
Qed.

Lemma fetched_None_without_rows online w query :
  online = false ∨ supabase w = false ∨ selectFails query = true →
  fetched (reloaded online w) query = None.
Proof.
  unfold fetched, reloaded. simpl.
  intros [->|[->|Hfail]]; [done|by rewrite andb_false_r|].
  destruct (online && supabase w); [|done].
  by destruct query as [|[d [msg|]]].
Qed.

(** X16: what a mutation leaves survives a reload without the remote
    store.  If the text written to the cache reads back as the collection,
    then a load from fresh state over the same storage that obtains no
    rows (offline, no client, or a failed request) ends normally and
    shows exactly the collection the mutation left. *)
Theorem reload_shows_last_mutation m remote online query w :
  let w' := run (perform m remote) w in
  JSON_stringify_stops (stops w') ≠ "" →
  JSON_parse_stops (JSON_stringify_stops (stops w')) = Some (stops w') →
  online = false ∨ supabase w = false ∨ selectFails query = true →
  outcome (loadData query) (reloaded online w') = Done tt ∧
  stops (run (loadData query) (reloaded online w')) = stops w' ∧
  isLoading (run (loadData query) (reloaded online w')) = false.
Proof.
  intros w' Hne Hback Hwhy. subst w'.
  set (w' := run (perform m remote) w) in *.
  assert (Hshown : provisional (reloaded online w') = Some (stops w')).
  { unfold provisional, reloaded. simpl.
    destruct (perform_run m remote w) as (_ & Hls & _). fold w' in Hls.
    rewrite Hls, lookup_insert_eq. simpl.
    apply truthy_nonempty in Hne. by rewrite Hne. }
  destruct (loadData_run query _ _ Hshown) as (Hout & Hload & Hcase).
  rewrite fetched_None_without_rows in Hcase.
  - by destruct Hcase as (Hstops & _).
  - destruct (perform_connection m remote w) as [_ Hsb]. fold w' in Hsb.
    by rewrite Hsb.
Qed.

Lemma supabaseClient_missing url key :
  url = None ∨ url = Some "" ∨ key = None ∨ key = Some "" →
  supabaseClient url key = false.
Proof.
  unfold supabaseClient.
  intros [-> | [-> | [-> | ->]]]; simpl; try done;
    by destruct (present url).
Qed.

Lemma loadData_without_request query w :
  isOnline w && supabase w = false →
  trace (run (loadData query) w) = trace w ∧
  localStorage (run (loadData query) w) = localStorage w.
Proof.
  intros Hoff. unfold run, loadData. run_op.
  destruct (present (localStorage w !! stopsKey)) as [text|];
    [destruct (JSON_parse_stops text); run_op; [|done]|];
    destruct (isOnline w), (supabase w); simpl in *; done.
Qed.

(** X17: without a client the component works on its own.  When the
    Supabase address or key is missing or empty no client exists, and
    then, as when offline, a load issues no request, writes nothing and
    logs nothing, and a mutation does nothing outside but its one cache
    write. *)
Theorem no_client_no_request url key w :
  isOnline w = false ∨
  (supabase w = supabaseClient url key ∧
   (url = None ∨ url = Some "" ∨ key = None ∨ key = Some "")) →
  (∀ query,
     trace (run (loadData query) w) = trace w ∧
     localStorage (run (loadData query) w) = localStorage w) ∧
  (∀ m remote,
     outcome (perform m remote) w = Done tt ∧
     trace (run (perform m remote) w)
     = trace w
       ++ [LocalSet stopsKey
             (JSON_stringify_stops (stops (run (perform m remote) w)))]).
Proof.
  intros Hwhy.
  assert (Hoff : isOnline w && supabase w = false).
  { destruct Hwhy as [->|[-> Hmiss]]; [done|].
    rewrite supabaseClient_missing by done. apply andb_false_r. }
  split; [intros query; by apply loadData_without_request|].
  intros m remote.
  destruct (perform_run m remote w) as (Hout & _ & Htr).
  split; [done|]. rewrite Htr. unfold pushed. by rewrite Hoff.
Qed.

(** X18: a cached collection that [JSON.parse] rejects stops the startup.
    [loadData] throws at once: no request is issued, nothing is written
    or logged, the collection is untouched and [isLoading] stays set, so
    that from an empty collection the loading screen remains. *)
Theorem loadData_stuck_on_unreadable_cache query w text :
  localStorage w !! stopsKey = Some text → text ≠ "" →
  JSON_parse text = None →
  JSON_parse_stops text = None →
  let w' := run (loadData query) w in
  outcome (loadData query) w = Thrown SyntaxError ∧
  stops w' = stops w ∧ localStorage w' = localStorage w ∧
  trace w' = trace w ∧ isLoading w' = true ∧
  (stops w = [] → showsLoadingScreen w' = true).
Proof.
  intros Hentry Hne _ Hbad w'. subst w'.
  apply truthy_nonempty in Hne.
  unfold run, outcome, showsLoadingScreen, loadData. run_op.
  rewrite Hentry. simpl. rewrite Hne, Hbad. simpl.
  repeat split; try done. by intros ->.
Qed.

(** X25: the remote rows win over changes that never reached the remote
    store.  Whatever a mutation left in memory and in the cache, and
    however its own push ended, a reload whose fetch succeeds shows the
    fetched rows, overwrites the cache with them and sends nothing but
    the select: the local change is not pushed. *)
Theorem reload_online_discards_local_change m remote rows cachedRows w :
  let w' := reloaded true (run (perform m remote) w) in
  supabase w = true →
  provisional w' = Some cachedRows →
  let loaded :=
    run (loadData (Resolves (mkResponse (Some rows) None))) w' in
  stops loaded = rows ∧
  localStorage loaded !! stopsKey = Some (JSON_stringify_stops rows) ∧
  trace loaded
  = [RemoteSelect; LocalSet stopsKey (JSON_stringify_stops rows)].
Proof.
  intros w' Hclient Hshown loaded. subst loaded.
  destruct (loadData_run (Resolves (mkResponse (Some rows) None)) w'
              cachedRows Hshown) as (_ & _ & Hcase).
  assert (Hfetched : fetched w' (Resolves (mkResponse (Some rows) None))
                     = Some rows).
  { unfold fetched. subst w'. simpl.
    destruct (perform_connection m remote w) as [_ ->].
    by rewrite Hclient. }
  rewrite Hfetched in Hcase. destruct Hcase as (Hst & Hls & Htr).
  split; [done|]. split; [|done].
  rewrite Hls. apply lookup_insert_eq.
Qed.
End Persistence.

(** ** More about the insight resolver *)

Section Resolver.
Context `{Host}.

(** X19: the generation service is asked once per stop.  After an online
    resolution whose answer parsed and whose stored text reads back,
    whatever the component does next, a later resolution for the same
    stop shows the same insight from the cache: it makes no call and
    writes nothing, online or offline. *)
Theorem generation_happens_once stop text parsed actions generation w :
  present (localStorage w !! cacheKey stop) = None →
  isOnline w = true →
  JSON_parse (textOrEmptyObject text) = Some parsed →
  JSON_stringify parsed ≠ "" →
  JSON_parse (JSON_stringify parsed) = Some parsed →
  let later :=
    replay actions (run (fetchAiInsights stop (Resolves text)) w) in
  outcome (fetchAiInsights stop generation) later = Done tt ∧
  aiInsights (run (fetchAiInsights stop generation) later) = parsed ∧
  trace (run (fetchAiInsights stop generation) later) = trace later ∧
  localStorage (run (fetchAiInsights stop generation) later)
  = localStorage later.
Proof.
  intros Hp Hon Hparse Hne Hback later.
  assert (Hentry : localStorage later !! cacheKey stop
                   = Some (JSON_stringify parsed)).
  { subst later. apply replay_keeps_entry.
    - apply cacheKey_not_stopsKey.
    - unfold run. rewrite fetch_online by done. simpl. rewrite Hparse.
      simpl. apply lookup_insert_eq.
    - by apply truthy_nonempty. }
  unfold run, outcome.
  rewrite (fetch_cached _ _ _ (JSON_stringify parsed)), Hback; [done|].
  rewrite Hentry. apply present_Some. by apply truthy_nonempty.
Qed.

(** X20: a cached insight that does not parse is not replaced by the
    heuristic.  The read of the cache lies outside the [try] block, so
    the resolver throws and leaves the state wholly unchanged: no
    fallback, no generation call, no write. *)
Theorem fetchAiInsights_unreadable_entry stop generation w text :
  localStorage w !! cacheKey stop = Some text → text ≠ "" →
  JSON_parse text = None →
  fetchAiInsights stop generation w = (Thrown SyntaxError, w).
Proof.
  intros Hentry Hne Hbad. apply truthy_nonempty in Hne.
  rewrite (fetch_cached _ _ _ text), Hbad; [done|].
  rewrite Hentry. by apply present_Some.
Qed.

Lemma truthy_getSmartFallback stopTitle :
  truthy_json (getSmartFallback stopTitle) = true.
Proof.
  unfold getSmartFallback. by repeat case_match.
Qed.

Lemma fetchAiInsights_stops stop generation w :
  stops (run (fetchAiInsights stop generation) w) = stops w ∧
  isOnline (run (fetchAiInsights stop generation) w) = isOnline w.
Proof.
  unfold run.
  destruct (present (localStorage w !! cacheKey stop)) as [text|] eqn:Hp.
  - rewrite (fetch_cached _ _ _ text Hp). by destruct (JSON_parse text).
  - destruct (isOnline w) eqn:Hon.
    + rewrite fetch_online by done. by destruct (generated generation).
    + by rewrite fetch_offline.
Qed.

(** X21: the effect on the next stop.  With no planned stop it clears
    the insight and does nothing else.  With a next stop that has nothing
    cached, the insight panel is on display afterwards: online in any
    case, offline because the heuristic insight is always an object. *)
Theorem nextStopEffect_clears_or_shows generation w :
  ((∀ x, x ∈ stops w → status x ≠ planned) →
     nextStopEffect generation w
     = (Done tt,
        mkWorld (stops w) (isAdding w) (isLoading w) (isOnline w) JNull
          (isLoadingAi w) (supabase w) (localStorage w) (trace w))) ∧
  (∀ s, nextStop (stops w) = Some s →
     present (localStorage w !! cacheKey s) = None →
     showsInsightPanel (run (nextStopEffect generation) w) = true).
Proof.
  split.
  - intros Hnone. apply nextStop_None in Hnone.
    unfold nextStopEffect, mbind, M_bind, get. by rewrite Hnone.
  - intros s Hnext Hp.
    assert (Heff : nextStopEffect generation w
                   = fetchAiInsights s generation w).
    { unfold nextStopEffect, mbind, M_bind, get. by rewrite Hnext. }
    unfold run, showsInsightPanel. rewrite Heff.
    destruct (fetchAiInsights_stops s generation w) as [Hst Hon].
    unfold run in Hst, Hon. rewrite Hst, Hnext, Hon.
    destruct (isOnline w) eqn:Honline; [done|]. simpl.
    rewrite fetch_offline by done. simpl.
    apply truthy_getSmartFallback.
Qed.

(** X22: the heuristic always answers with the four fields, each a
    non-empty text, the weather and recommendation lines being the same
    for every title; and the default advice is given exactly when none of
    the six keywords occurs in the lower-cased title. *)
Theorem getSmartFallback_is_complete stopTitle :
  let t := toLowerCase stopTitle in
  ∃ tips costs,
    getSmartFallback stopTitle
    = JObj [("costs", JStr costs);
            ("weather", JStr "Cek langit secara manual (Mode Offline)");
            ("recommendations",
             JStr "Tanya warga lokal untuk spot terbaik.");
            ("tips", JStr tips)] ∧
    tips ≠ "" ∧ costs ≠ "" ∧
    (tips = "Siapkan peta offline dan air minum." ↔
     includes t "pantai" = false ∧ includes t "candi" = false ∧
     includes t "museum" = false ∧ includes t "makan" = false ∧
     includes t "resto" = false ∧ includes t "kuliner" = false).
Proof.
  intros t. unfold getSmartFallback. fold t.
  destruct (includes t "pantai") eqn:E1; simpl.
  { eexists _, _. split; [reflexivity|]. repeat split; try done.
    intros (? & _); done. }
  destruct (includes t "candi") eqn:E2; simpl.
  { eexists _, _. split; [reflexivity|]. repeat split; try done.
    intros (_ & ? & _); done. }
  destruct (includes t "museum") eqn:E3; simpl.
  { eexists _, _. split; [reflexivity|]. repeat split; try done.
    intros (_ & _ & ? & _); done. }
  destruct (includes t "makan") eqn:E4; simpl.
  { eexists _, _. split; [reflexivity|]. repeat split; try done.
    intros (_ & _ & _ & ? & _); done. }
  destruct (includes t "resto") eqn:E5; simpl.
  { eexists _, _. split; [reflexivity|]. repeat split; try done.
    intros (_ & _ & _ & _ & ? & _); done. }
  destruct (includes t "kuliner") eqn:E6; simpl.
  { eexists _, _. split; [reflexivity|]. repeat split; try done.
    intros (_ & _ & _ & _ & _ & ?); done. }
  eexists _, _. split; [reflexivity|]. repeat split; done.
Qed.
End Resolver.

(** ** What the insight panel prints *)

Section Panel.
Context `{Host}.
Variable numberToString : Z → string.

Lemma joined_texts (texts : list string) :
  map (joined numberToString) (map JStr texts) = texts.
Proof. induction texts as [|s l IH]; simpl; [done|]. by rewrite IH. Qed.

(** X23: [renderAiValue] prints a text as it is and flattens a
    structured value: an object whose values are texts, or an array of
    texts, prints as those texts joined by a comma and a space, in the
    order of the properties.  A missing field and [null] print as the
    empty text. *)
Theorem renderAiValue_flattens :
  (∀ s, renderAiValue numberToString (Some (JStr s)) = s) ∧
  (∀ entries : list (string * string),
     renderAiValue numberToString
       (Some (JObj (map (λ kv, (kv.1, JStr kv.2)) entries)))
     = String.concat ", " (map snd entries)) ∧
  (∀ texts : list string,
     renderAiValue numberToString (Some (JArr (map JStr texts)))
     = String.concat ", " texts) ∧
  renderAiValue numberToString None = "" ∧
  renderAiValue numberToString (Some JNull) = "".
Proof.
  split; [|split; [|split]].
  - intros s. unfold renderAiValue. simpl. by destruct s.
  - intros entries. unfold renderAiValue. simpl. f_equal.
    rewrite <- (joined_texts (map snd entries)).
    rewrite !map_map. done.
  - intros texts. unfold renderAiValue. simpl. by rewrite joined_texts.
  - done.
Qed.

(** X24: what the panel prints.  For the heuristic insight of any title
    the four lines are the canned texts themselves, never a stock line.
    For a truthy answer that carries none of the four fields (the empty
    object, say) or is no object at all, the panel prints the three
    stock lines and an empty tip.  For a falsy answer ([null], [0],
    [false], the empty text) it prints none of the four lines: the
    waiting line is shown instead. *)
Theorem panel_lines stopTitle :
  (∃ tips costs,
     getSmartFallback stopTitle
     = JObj [("costs", JStr costs);
             ("weather", JStr "Cek langit secara manual (Mode Offline)");
             ("recommendations",
              JStr "Tanya warga lokal untuk spot terbaik.");
             ("tips", JStr tips)] ∧
     panelTexts numberToString (getSmartFallback stopTitle)
     = Some (costs, "Cek langit secara manual (Mode Offline)",
             "Tanya warga lokal untuk spot terbaik.", tips)) ∧
  (∀ answer,
     truthy_json answer = true →
     getProperty answer "costs" = None →
     getProperty answer "weather" = None →
     getProperty answer "recommendations" = None →
     getProperty answer "tips" = None →
     panelTexts numberToString answer
     = Some ("Cek tiket masuk di lokasi.",
             "Siapkan payung untuk berjaga-jaga.",
             "Jelajahi area sekitar.", "")) ∧
  (∀ answer,
     truthy_json answer = true → (∀ fields, answer ≠ JObj fields) →
     panelTexts numberToString answer
     = Some ("Cek tiket masuk di lokasi.",
             "Siapkan payung untuk berjaga-jaga.",
             "Jelajahi area sekitar.", "")) ∧
  (∀ answer,
     answer = JNull ∨ answer = JNum 0 ∨ answer = JBool false ∨
     answer = JStr "" →
     panelTexts numberToString answer = None).
Proof.
  assert (Hbare : ∀ answer,
            truthy_json answer = true →
            getProperty answer "costs" = None →
            getProperty answer "weather" = None →
            getProperty answer "recommendations" = None →
            getProperty answer "tips" = None →
            panelTexts numberToString answer
            = Some ("Cek tiket masuk di lokasi.",
                    "Siapkan payung untuk berjaga-jaga.",
                    "Jelajahi area sekitar.", "")).
  { intros answer Ht Hc Hw Hr Hp. unfold panelTexts.
    by rewrite Ht, Hc, Hw, Hr, Hp. }
  split; [|split; [exact Hbare|split]].
  - unfold getSmartFallback.
    repeat case_match; eexists _, _; (split; [reflexivity|]);
      simplify_eq; reflexivity.
  - intros answer Ht Hno. apply Hbare; [done|..];
      destruct answer; try done; by destruct (Hno fields).
  - intros answer [-> | [-> | [-> | ->]]]; reflexivity.
Qed.
End Panel.

(** ** Worked examples for the further properties *)

Lemma delete_undoes_add_witness :
  stops (run (deleteStop "u9" Rejects)
           (run (addStop "u9" borobudur Rejects)
              (holding [sarapan; candi] false false)))
  = [sarapan; candi].
Proof.
  apply (delete_undoes_add "u9" borobudur Rejects Rejects
           (holding [sarapan; candi] false false)).
  - dated.
  - ordered.
  - vm_compute. eexists. reflexivity.
  - intros s Hs Hid. simpl in Hs.
    apply elem_of_cons in Hs as [->|Hs]; [discriminate|].
    apply list_elem_of_singleton in Hs as ->. discriminate.
Defined.

Lemma mutation_keeps_date_order_witness :
  sortedStops (stops (run (perform (Add "u9" borobudur) Rejects)
                        (holding [sarapan; candi] true true)))
  = stops (run (perform (Add "u9" borobudur) Rejects)
             (holding [sarapan; candi] true true)).
Proof.
  apply (mutation_keeps_date_order (Add "u9" borobudur) Rejects
           (holding [sarapan; candi] true true)).
  - dated.
  - ordered.
  - intros uuid formData [= <- <-]. vm_compute. eexists. reflexivity.
Defined.

Lemma mutation_keeps_ids_unique_witness :
  NoDup (map id (stops (run (perform (Add "u9" borobudur) Rejects)
                          (holding [sarapan; candi] true true)))).
Proof.
  apply (mutation_keeps_ids_unique (Add "u9" borobudur) Rejects
           (holding [sarapan; candi] true true)).
  - decided.
  - intros uuid formData [= <- <-]. decided.
Defined.

Lemma reactivate_undoes_skip_witness :
  stops (run (toggleStatus "b" (Some planned) Rejects)
           (run (toggleStatus "b" (Some skipped) Rejects)
              (holding [sarapan; candi; pantai] true true)))
  = [sarapan; candi; pantai].
Proof.
  apply (reactivate_undoes_skip "b" Rejects Rejects
           (holding [sarapan; candi; pantai] true true)).
  intros s Hs Hid. simpl in Hs.
  repeat (apply elem_of_cons in Hs as [->|Hs]; [done|]).
  by apply elem_of_nil in Hs.
Defined.

Lemma completing_next_stop_advances_witness :
  match nextStop (stops (run (toggleStatus (id candi) None Rejects)
                           (holding [pantai; sarapan; candi] true true)))
  with
  | Some s' =>
      s' ∈ [pantai; sarapan; candi] ∧ status s' = planned ∧
      id s' ≠ id candi ∧ instant candi ≤ instant s'
  | None => ∀ x, x ∈ [pantai; sarapan; candi] → status x = planned → x = candi
  end.
Proof.
  apply (completing_next_stop_advances Rejects
           (holding [pantai; sarapan; candi] true true) candi).
  - dated.
  - decided.
  - vm_compute. reflexivity.
Defined.


Lemma reload_shows_last_mutation_witness :
  stops (run (loadData Rejects)
           (reloaded true
              (run (perform (SetStatus "b" None) Rejects)
                 (holding [sarapan; candi] false true))))
  = [sarapan; withStatus candi visited].
Proof.
  destruct (reload_shows_last_mutation (SetStatus "b" None) Rejects true
              Rejects (holding [sarapan; candi] false true))
    as (_ & Hshown & _).
  - vm_compute. discriminate.
  - vm_compute. reflexivity.
  - right. right. reflexivity.
  - exact Hshown.
Defined.

Lemma no_client_no_request_witness :
  trace (run (perform (Remove "a") Rejects)
           (holding [sarapan; candi] true false))
  = [LocalSet stopsKey (JSON_stringify_stops [candi])].
Proof.
  destruct (no_client_no_request (Some "https://example.supabase.co") None
              (holding [sarapan; candi] true false)) as [_ Hmut].
  - right. split; [reflexivity|]. right. right. left. reflexivity.
  - destruct (Hmut (Remove "a") Rejects) as [_ Htrace]. exact Htrace.
Defined.

Lemma loadData_stuck_on_unreadable_cache_witness :
  showsLoadingScreen
    (run (loadData Rejects)
       (mkWorld [] false true true JNull false true
          {[ stopsKey := "[{" ]} []))
  = true.
Proof.
  destruct (loadData_stuck_on_unreadable_cache Rejects
              (mkWorld [] false true true JNull false true
                 {[ stopsKey := "[{" ]} []) "[{")
    as (_ & _ & _ & _ & _ & Hscreen).
  - reflexivity.
  - discriminate.
  - vm_compute. reflexivity.
  - vm_compute. reflexivity.
  - apply Hscreen. reflexivity.
Defined.

Lemma generation_happens_once_witness :
  let first := run (fetchAiInsights pantai (Resolves (Some "{}")))
                 (holding [pantai] true false) in
  let later := replay [Offline; Mutate (Remove "c") Rejects] first in
  aiInsights (run (fetchAiInsights pantai Rejects) later) = JObj [] ∧
  trace (run (fetchAiInsights pantai Rejects) later) = trace later.
Proof.
  intros first later. subst first later.
  destruct (generation_happens_once pantai (Some "{}") (JObj [])
              [Offline; Mutate (Remove "c") Rejects] Rejects
              (holding [pantai] true false))
    as (_ & Hsame & Hquiet & _).
  - reflexivity.
  - reflexivity.
  - vm_compute. reflexivity.
  - vm_compute. discriminate.
  - vm_compute. reflexivity.
  - split; [exact Hsame|exact Hquiet].
Defined.

Lemma fetchAiInsights_unreadable_entry_witness :
  outcome (fetchAiInsights pantai Rejects)
    (mkWorld [pantai] false false false JNull false false
       {[ cacheKey pantai := "{tips" ]} [])
  = Thrown SyntaxError.
Proof.
  unfold outcome.
  rewrite (fetchAiInsights_unreadable_entry pantai Rejects
             (mkWorld [pantai] false false false JNull false false
                {[ cacheKey pantai := "{tips" ]} []) "{tips").
  - reflexivity.
  - reflexivity.
  - discriminate.
  - vm_compute. reflexivity.
Defined.

Lemma reload_online_discards_local_change_witness :
  stops (run (loadData (Resolves (mkResponse (Some [pantai]) None)))
           (reloaded true
              (run (perform (SetStatus "b" None) Rejects)
                 (holding [sarapan; candi] false true))))
  = [pantai].
Proof.
  destruct (reload_online_discards_local_change (SetStatus "b" None)
              Rejects [pantai] [sarapan; withStatus candi visited]
              (holding [sarapan; candi] false true)) as (Hrows & _).
  - reflexivity.
  - vm_compute. reflexivity.
  - exact Hrows.
Defined.


(** C2, as stated, fails on a call the interface makes: the list view
    renders, for a skipped stop, the button that calls [toggleStatus]
    with the target visited, and that one call turns the skipped stop
    into a visited one. *)
Lemma selesai_turns_skipped_into_visited :
  let passed := withStatus pantai skipped in
  let w := holding [sarapan; passed] false false in
  (id passed, Some visited) ∈ statusButtons (stops w) ∧
  status passed = skipped ∧
  status <$> stops (run (toggleStatus (id passed) (Some visited) Rejects) w)
             !! 1%nat
  = Some visited.
Proof. split; [decided|]. split; vm_compute; reflexivity. Qed.

Lemma toggleStatus_between_visited_and_skipped_witness :
  let passed := withStatus pantai skipped in
  let w := holding [sarapan; passed] false false in
  (status (withStatus passed visited) = visited ↔
   id passed = "c" ∧
   (Some visited = (None : option Status) ∨ Some visited = Some visited)) ∧
  stops (run (toggleStatus "c" (Some visited) Rejects) w) !! 0%nat
  = Some sarapan.
Proof.
  intros passed w.
  destruct (toggleStatus_between_visited_and_skipped "c" (Some visited)
              Rejects w 1%nat passed (withStatus passed visited))
    as (_ & Hcross & _); [reflexivity|reflexivity|].
  split; [by apply Hcross|].
  destruct (stops (run (toggleStatus "c" (Some visited) Rejects) w) !! 0%nat)
    as [after|] eqn:Hafter; [|discriminate Hafter].
  destruct (toggleStatus_between_visited_and_skipped "c" (Some visited)
              Rejects w 0%nat sarapan after)
    as (_ & _ & _ & Hkept); [reflexivity|exact Hafter|].
  f_equal. apply Hkept; [decided|decided|reflexivity].
Defined.


Lemma generation_accepted_unvalidated_witness :
  let w := holding [candi; pantai] true false in
  let w' := run (fetchAiInsights pantai (Resolves (Some "{}"))) w in
  aiInsights w' = JObj [] ∧
  localStorage w' !! "ai_cache_c" = Some "{}" ∧
  localStorage w' !! "ai_cache_b" = None ∧
  localStorage
    (replay [Resolve pantai Rejects; Offline;
             Mutate (Remove "c") Rejects; NextStopChanged Rejects] w')
    !! "ai_cache_c" = Some "{}".
Proof.
  intros w w'. subst w'.
  destruct (generation_accepted_unvalidated pantai (Resolves (Some "{}")) w)
    as (_ & Haccepted & _).
  - reflexivity.
  - reflexivity.
  - vm_compute. reflexivity.
  - destruct (Haccepted (Some "{}") (JObj [])) as (Hai & Hstore & _ & Hkept).
    + reflexivity.
    + vm_compute. reflexivity.
    + split; [exact Hai|]. rewrite Hstore.
      split; [reflexivity|]. split; [reflexivity|].
      apply Hkept. vm_compute. discriminate.
Defined.

(** The total is taken in doubles, as the code takes it: past 2^53 a cost
    of 1 is lost in the addition. *)
Example totalCost_rounds_like_the_code :
  let big := mkStop "x" "Hotel" "Ubud" "2024-05-01T06:00" ""
               (Some 9007199254740992%float) planned 0 in
  let small := mkStop "y" "Parkir" "Ubud" "2024-05-01T06:30" ""
                 (Some 1%float) planned 1 in
  totalCost [big; small; small] = 9007199254740992%float ∧
  totalCost [small; small; big] = 9007199254740994%float.
Proof. vm_compute. split; reflexivity. Qed.
